(** * The success-rate scoring engine (backend/utils/mlPredictor.js)

    A shallow embedding of the logistic-regression predictor: feature
    encoding, the seeded generator of synthetic training data, the
    trainer, the model store and the two exported operations.

    Modelling conventions.
    - A JavaScript number is a real number ([R]): arithmetic is exact and
      there is neither NaN nor an infinity.  [Math.exp] and [Math.log] are
      [exp] and [ln].  Integers that the generator manipulates with the
      32-bit operators are in [Z], their wrap-around written out.
      The path of [predictSuccessRate] is embedded a second time, in the
      module [Ext], over the numbers extended with NaN and the
      infinities; on finite numbers the two agree.
    - A JavaScript string is a [string] whose characters are its code
      units; only code units below 256 are represented.
    - A field that may be missing is an [option]: [None] is [undefined]
      (or [null]).
    - The closure [mulberry32] returns is a cell of a heap, holding the
      variable it captures; a call of the closure updates its cell.
    - The text of the model file is represented by what [JSON.parse]
      makes of it; a function that may throw returns a [result]. *)

From Stdlib Require Import Reals Lra Lia ZArith List String Ascii Bool.
Import ListNotations.

Set Warnings "-register-all".
Local Open Scope R_scope.

(** ** Utilities *)

Definition sigmoid (z : R) : R := 1 / (1 + exp (- z)).

Definition clamp01 (v : R) : R := Rmax 0 (Rmin 1 v).

(** [Number(x) || 0].  [None] stands for every value that [Number] maps to
    NaN ([undefined], a string that is not a numeral, ...); [Some r] for a
    value that [Number] maps to [r]. *)
Definition Number_or_0 (x : option R) : R :=
  match x with
  | Some r => r
  | None => 0
  end.

Definition logNormalize (x : option R) : R :=
  ln (1 + Rmax 0 (Number_or_0 x)) / ln (1 + 1000000).

(** ** Strings *)

(** [String.prototype.toLowerCase] on one code unit below 256: the letters
    A-Z and the accented capitals of Latin-1 (all of 0xC0-0xDE but the
    multiplication sign 0xD7) move up by 32. *)
Definition lower_unit (c : ascii) : ascii :=
  let n := N_of_ascii c in
  if (((65 <=? n) && (n <=? 90)) ||
      ((192 <=? n) && (n <=? 222) && negb (n =? 215)))%N
  then ascii_of_N (n + 32)
  else c.

Fixpoint toLowerCase (s : string) : string :=
  match s with
  | EmptyString => EmptyString
  | String c rest => String (lower_unit c) (toLowerCase rest)
  end.

(** [value || ''] on a string-or-missing field. *)
Definition or_empty (value : option string) : string :=
  match value with
  | Some s => s
  | None => EmptyString
  end.

(** [Array.prototype.indexOf] on an array of strings: the first index
    holding the string, [-1] when there is none. *)
Fixpoint indexOf_from (i : Z) (values : list string) (s : string) : Z :=
  match values with
  | [] => (-1)%Z
  | v :: rest => if String.eqb v s then i else indexOf_from (i + 1) rest s
  end.

Definition indexOf (values : list string) (s : string) : Z :=
  indexOf_from 0 values s.

(** [Array.prototype.map] with the callback's index argument. *)
Fixpoint map_from {A B : Type} (f : A -> Z -> B) (i : Z) (l : list A) : list B :=
  match l with
  | [] => []
  | a :: rest => f a i :: map_from f (i + 1) rest
  end.

Definition map_index {A B : Type} (f : A -> Z -> B) (l : list A) : list B :=
  map_from f 0 l.

(** ** One-hot encoders *)

Definition CATEGORY_VALUES : list string :=
  ["agriculture"; "education"; "healthcare"; "technology"; "infrastructure";
   "other"]%string.

Definition LOCATION_VALUES : list string :=
  ["urban"; "suburban"; "rural"; "coastal"; "inland"; "unknown"]%string.

Definition oneHot (value : option string) (values : list string) : list R :=
  let idx := indexOf values (toLowerCase (or_empty value)) in
  map_index
    (fun _ i =>
       if (i =? (if 0 <=? idx then idx else Z.of_nat (List.length values) - 1))%Z
       then 1 else 0)
    values.

(** ** Feature vector *)

(** The object [buildFeatures] reads: the result of [normalizeInput], or the
    literal the dataset generator builds. *)
Record FeaturesInput := {
  category : option string;
  requiredFunding : option R;
  targetAudience : option string;
  authorLocation : option string
}.

(** [((input.targetAudience || '').length || 0) / 200], capped at 1. *)
Definition audienceFeature (audience : option string) : R :=
  Rmin 1 (INR (String.length (or_empty audience)) / 200).

Definition buildFeatures (input : FeaturesInput) : list R :=
  let categoryOneHot := oneHot (category input) CATEGORY_VALUES in
  let locationOneHot := oneHot (authorLocation input) LOCATION_VALUES in
  let funding := logNormalize (requiredFunding input) in
  let audienceLen := audienceFeature (targetAudience input) in
  categoryOneHot ++ [funding; audienceLen] ++ locationOneHot.

(** ** Deterministic pseudorandom generator *)

(** The 32-bit integer operators, on [Z]. *)
Definition ToUint32 (z : Z) : Z := (z mod 4294967296)%Z.

Definition ToInt32 (z : Z) : Z :=
  ((z + 2147483648) mod 4294967296 - 2147483648)%Z.

(** [a ^ b], [a | b], [a >>> k] (for [0 <= k < 32]) and [Math.imul(a, b)]. *)
Definition xor32 (a b : Z) : Z := ToInt32 (Z.lxor (ToInt32 a) (ToInt32 b)).
Definition or32 (a b : Z) : Z := ToInt32 (Z.lor (ToInt32 a) (ToInt32 b)).
Definition ushr32 (a k : Z) : Z := Z.shiftr (ToUint32 a) k.
Definition imul (a b : Z) : Z := ToInt32 (ToInt32 a * ToInt32 b).

(** One call of the function [mulberry32] returns, as a transition on its
    captured variable [a]: the new [a] and the 32-bit numerator of the
    number returned.  [a += 0x6D2B79F5] is an addition of numbers: [a] is
    not wrapped to 32 bits. *)
Definition mulberry32_step (a : Z) : Z * Z :=
  let a := (a + 0x6D2B79F5)%Z in
  let t := a in
  let t := imul (xor32 t (ushr32 t 15)) (or32 t 1) in
  let t := xor32 t (t + imul (xor32 t (ushr32 t 7)) (or32 t 61)) in
  (a, ushr32 (xor32 t (ushr32 t 14)) 0).

(** Each closure [mulberry32] returns owns one cell of the heap, holding
    its captured variable [a]; the closure is the address of its cell. *)
Definition heap := list Z.
Definition generator := nat.

(** Computations that read and update the heap. *)
Definition M (A : Type) : Type := heap -> A * heap.

Definition ret {A : Type} (a : A) : M A := fun h => (a, h).

Definition bind {A B : Type} (c : M A) (k : A -> M B) : M B :=
  fun h => let (a, h') := c h in k a h'.

Notation "x <- c ;; k" := (bind c (fun x => k))
  (at level 61, c at next level, right associativity).

(** [l[i] = v] on an array, for an index in range. *)
Fixpoint set_cell {A : Type} (i : nat) (v : A) (l : list A) : list A :=
  match l, i with
  | [], _ => []
  | _ :: rest, O => v :: rest
  | x :: rest, S j => x :: set_cell j v rest
  end.

Definition mulberry32 (a : Z) : M generator :=
  fun h => (List.length h, h ++ [a]).

(** [rand()]. *)
Definition call (rand : generator) : M R :=
  fun h =>
    let (a, u) := mulberry32_step (nth rand h 0%Z) in
    (IZR u / 4294967296, set_cell rand a h).

(** ** Synthetic dataset generation *)

Definition Math_floor (x : R) : Z := Int_part x.

Definition categoryBase (category : option string) : R :=
  let c := toLowerCase (or_empty category) in
  if String.eqb c "technology" then 1.0
  else if String.eqb c "healthcare" then 0.8
  else if String.eqb c "education" then 0.6
  else if String.eqb c "infrastructure" then 0.4
  else if String.eqb c "agriculture" then 0.5
  else 0.3.

Definition locationBase (loc : option string) : R :=
  let l := toLowerCase (or_empty loc) in
  if String.eqb l "urban" then 0.5
  else if String.eqb l "suburban" then 0.35
  else if String.eqb l "coastal" then 0.3
  else if String.eqb l "inland" then 0.15
  else if String.eqb l "rural" then 0.1
  else 0.0.

Definition audience_lengths : list Z := [20; 60; 120; 180]%Z.

Definition audience_words : list string :=
  ["youth"; "farmers"; "smes"; "patients"; "developers"; "teachers";
   "commuters"; "tourists"; "parents"; "seniors"]%string.

(** The loop of [randomAudience]: [count] words pushed on [s]. *)
Fixpoint randomAudience_loop (rand : generator) (count : nat) (s : list string)
  : M (list string) :=
  match count with
  | O => ret s
  | S count' =>
      r <- call rand ;;
      let word :=
        nth (Z.to_nat (Math_floor (r * INR (List.length audience_words))))
            audience_words EmptyString in
      randomAudience_loop rand count' (s ++ [word])
  end.

Definition randomAudience (rand : generator) : M string :=
  r <- call rand ;;
  let len :=
    nth (Z.to_nat (Math_floor (r * INR (List.length audience_lengths))))
        audience_lengths 0%Z in
  s <- randomAudience_loop rand (Z.to_nat (len / 6)) [] ;;
  ret (String.concat " " s).

Record RawRow := {
  row_category : option string;
  row_authorLocation : option string;
  row_requiredFunding : R;
  row_targetAudience : string;
  row_success : R
}.

Record Dataset := {
  X : list (list R);
  y : list R;
  rawRows : list RawRow
}.

(** One iteration of the loop of [generateSyntheticDataset]. *)
Definition generate_sample (rand : generator) (acc : Dataset) : M Dataset :=
  r1 <- call rand ;;
  let category :=
    nth_error CATEGORY_VALUES
      (Z.to_nat (Math_floor (r1 * INR (List.length CATEGORY_VALUES)))) in
  r2 <- call rand ;;
  let authorLocation :=
    nth_error LOCATION_VALUES
      (Z.to_nat (Math_floor (r2 * INR (List.length LOCATION_VALUES)))) in
  r3 <- call rand ;;
  let requiredFunding := IZR (Math_floor (r3 * 300000)) in
  targetAudience <- randomAudience rand ;;
  let featuresInput :=
    {| category := category;
       authorLocation := authorLocation;
       requiredFunding := Some requiredFunding;
       targetAudience := Some targetAudience |} in
  let feats := buildFeatures featuresInput in
  let base := 0.0 in
  let base := base + categoryBase category in
  let base := base - (requiredFunding / 300000) * 1.2 in
  let base := base + Rmin 1 (INR (String.length targetAudience) / 200) * 0.6 in
  let base := base + locationBase authorLocation in
  r4 <- call rand ;;
  let base := base + (r4 - 0.5) * 0.3 in
  let prob := sigmoid base in
  let label := if Rlt_dec 0.5 prob then 1 else 0 in
  ret {| X := X acc ++ [feats];
         y := y acc ++ [label];
         rawRows := rawRows acc ++
           [{| row_category := category;
               row_authorLocation := authorLocation;
               row_requiredFunding := requiredFunding;
               row_targetAudience := targetAudience;
               row_success := label |}] |}.

Fixpoint generate_loop (rand : generator) (count : nat) (acc : Dataset)
  : M Dataset :=
  match count with
  | O => ret acc
  | S count' =>
      acc' <- generate_sample rand acc ;;
      generate_loop rand count' acc'
  end.

(** [generateSyntheticDataset(numSamples = 1200, seed = 42)]: a missing
    argument is [None]. *)
Definition generateSyntheticDataset (numSamples : option nat) (seed : option Z)
  : M Dataset :=
  let numSamples := match numSamples with Some n => n | None => 1200%nat end in
  let seed := match seed with Some s => s | None => 42%Z end in
  rand <- mulberry32 seed ;;
  generate_loop rand numSamples {| X := []; y := []; rawRows := [] |}.

(** ** Logistic regression *)

Record LogisticRegression := {
  weights : list R;
  bias : R
}.

(** [new LogisticRegression(nFeatures)]. *)
Definition new_LogisticRegression (nFeatures : nat) : LogisticRegression :=
  {| weights := repeat 0 nFeatures; bias := 0 |}.

(** [x[i]] on an array of numbers.  Every read of the source that the
    theorems below reason about is in range. *)
Definition get (x : list R) (i : nat) : R := nth i x 0.

Definition predictProba (this : LogisticRegression) (x : list R) : R :=
  let z :=
    fold_left (fun z i => z + get (weights this) i * get x i)
              (seq 0 (List.length (weights this))) (bias this) in
  sigmoid z.

Record TrainOptions := {
  learningRate : option R;
  epochs : option nat
}.

(** The body of the loop over the examples: the gradient accumulators
    [(gradW, gradB)] after example [i]. *)
Definition train_example (this : LogisticRegression)
    (X : list (list R)) (y : list R) (grad : list R * R) (i : nat)
  : list R * R :=
  let (gradW, gradB) := grad in
  let p := predictProba this (nth i X []) in
  let error := p - get y i in
  let gradW :=
    fold_left
      (fun gradW j => set_cell j (get gradW j + error * get (nth i X []) j) gradW)
      (seq 0 (List.length (weights this))) gradW in
  (gradW, gradB + error).

(** The body of the loop over the epochs. *)
Definition train_epoch (X : list (list R)) (y : list R) (learningRate : R)
    (this : LogisticRegression) : LogisticRegression :=
  let n := List.length X in
  let gradW := repeat 0 (List.length (weights this)) in
  let gradB := 0 in
  let (gradW, gradB) :=
    fold_left (train_example this X y) (seq 0 n) (gradW, gradB) in
  let weights' :=
    fold_left
      (fun w j => set_cell j (get w j - (learningRate / INR n) * get gradW j) w)
      (seq 0 (List.length (weights this))) (weights this) in
  {| weights := weights'; bias := bias this - (learningRate / INR n) * gradB |}.

Definition train (X : list (list R)) (y : list R) (options : TrainOptions)
    (this : LogisticRegression) : LogisticRegression :=
  let learningRate :=
    match learningRate options with Some l => l | None => 0.3 end in
  let epochs := match epochs options with Some e => e | None => 300%nat end in
  fold_left (fun this _epoch => train_epoch X y learningRate this)
            (seq 0 epochs) this.

(** ** Persistence helpers *)

(** A value [JSON.parse] can return.  [JObj] lists the own properties of
    the object, each key once. *)
Inductive json : Type :=
| JNull
| JBool (b : bool)
| JNum (r : R)
| JStr (s : string)
| JArr (items : list json)
| JObj (fields : list (string * json)).

(** The text of a file is represented by what [JSON.parse] makes of it: a
    text that is not JSON, or the value it denotes. *)
Inductive text : Type :=
| NotJson
| Denotes (data : json).

(** The directory [ML_DIR] and the file [MODEL_PATH] in it. *)
Record disk := {
  mlDir : bool;
  modelFile : option text
}.

Inductive error : Type :=
| SyntaxError
| TypeError.

Inductive result (A : Type) : Type :=
| Return (a : A)
| Throw (e : error).

Arguments Return {A} a.
Arguments Throw {A} e.

Definition JSON_parse (raw : text) : result json :=
  match raw with
  | NotJson => Throw SyntaxError
  | Denotes data => Return data
  end.

(** [JSON.stringify(payload, null, 2)]: the text that parses back to the
    payload (every number of the model is finite). *)
Definition JSON_stringify (payload : json) : text := Denotes payload.

Fixpoint lookup (key : string) (fields : list (string * json)) : option json :=
  match fields with
  | [] => None
  | (k, v) :: rest => if String.eqb k key then Some v else lookup key rest
  end.

(** [data.key] for a key that no prototype defines: a [TypeError] on
    [null], [undefined] ([None]) on a missing property and on every value
    that is not an object. *)
Definition get_property (data : json) (key : string) : result (option json) :=
  match data with
  | JNull => Throw TypeError
  | JObj fields => Return (lookup key fields)
  | _ => Return None
  end.

(** The number an element of a stored array is used as.  [loadModel] adopts
    the array without looking at its elements; an element that is not a
    number has no counterpart among the numbers of this model ([null] and
    the booleans are coerced by the arithmetic of the source to 0 and 1,
    the rest mostly to NaN), and the theorems below use [ToNumber] on
    arrays of numbers only. *)
Definition ToNumber (v : json) : R :=
  match v with
  | JNum r => r
  | JBool true => 1
  | _ => 0
  end.

Definition ensureMlDir (d : disk) : disk :=
  if negb (mlDir d) then {| mlDir := true; modelFile := modelFile d |} else d.

Definition saveModel (modelInstance : LogisticRegression) (d : disk) : disk :=
  let d := ensureMlDir d in
  let payload :=
    JObj [("weights", JArr (map JNum (weights modelInstance)));
          ("bias", JNum (bias modelInstance));
          ("featureOrder",
           JObj [("CATEGORY_VALUES", JArr (map JStr CATEGORY_VALUES));
                 ("LOCATION_VALUES", JArr (map JStr LOCATION_VALUES));
                 ("funding", JStr "logNormalize");
                 ("audienceLength", JStr "0..1 by /200 cap")])]%string in
  {| mlDir := mlDir d; modelFile := Some (JSON_stringify payload) |}.

(** [loadModel] returns its boolean together with the model instance as
    the call leaves it, or throws. *)
Definition loadModel (modelInstance : LogisticRegression) (d : disk)
  : result (bool * LogisticRegression) :=
  match modelFile d with
  | None => Return (false, modelInstance)
  | Some raw =>
      match JSON_parse raw with
      | Throw e => Throw e
      | Return data =>
          match get_property data "weights" with
          | Throw e => Throw e
          | Return (Some (JArr ws)) =>
              match get_property data "bias" with
              | Throw e => Throw e
              | Return (Some (JNum b)) =>
                  if negb (List.length ws =? List.length (weights modelInstance))%nat
                  then Return (false, modelInstance)
                  else Return (true, {| weights := map ToNumber ws; bias := b |})
              | Return _ => Return (false, modelInstance)
              end
          | Return _ => Return (false, modelInstance)
          end
      end
  end.

(** ** Public API *)

Definition featureDim : nat :=
  (List.length CATEGORY_VALUES + 1 + 1 + List.length LOCATION_VALUES)%nat.

(** The object the callers pass to the exported functions. *)
Module Idea.
Record t := {
  category : option string;
  requiredFunding : option R;
  targetAudience : option string;
  authorLocation : option string;
  location : option string
}.
End Idea.

(** [a || b] on string-or-missing values: the empty string is falsy. *)
Definition or_else (a b : option string) : option string :=
  match a with
  | Some EmptyString => b
  | Some _ => a
  | None => b
  end.

Definition normalizeInput (idea : Idea.t) : FeaturesInput :=
  {| category := Idea.category idea;
     requiredFunding := Idea.requiredFunding idea;
     targetAudience := Idea.targetAudience idea;
     authorLocation :=
       or_else (or_else (Idea.authorLocation idea) (Idea.location idea))
               (Some "unknown"%string) |}.

Record Term := {
  feature : string;
  weight : R;
  value : option R
}.

Record Contributions := {
  contrib_bias : R;
  terms : list Term
}.

(** [x[index] === 1]. *)
Definition is_one (r : R) : bool := if Req_dec_T r 1 then true else false.

Definition perFeatureContributions (x w : list R) (b : R) : Contributions :=
  let parts := [] in
  let index := 0%nat in
  let parts :=
    fold_left
      (fun parts i =>
         if is_one (get x (index + i))
         then parts ++
              [{| feature :=
                    String.append "category:"
                                  (nth i CATEGORY_VALUES "undefined"%string);
                  weight := get w (index + i); value := None |}]
         else parts)
      (seq 0 (List.length CATEGORY_VALUES)) parts in
  let index := (index + List.length CATEGORY_VALUES)%nat in
  let fundingIdx := index in
  let index := S index in
  let parts :=
    parts ++ [{| feature := "requiredFunding(log-normalized)";
                 weight := get w fundingIdx; value := Some (get x fundingIdx) |}] in
  let audienceIdx := index in
  let index := S index in
  let parts :=
    parts ++ [{| feature := "targetAudienceLength(norm)";
                 weight := get w audienceIdx; value := Some (get x audienceIdx) |}] in
  let parts :=
    fold_left
      (fun parts i =>
         if is_one (get x (index + i))
         then parts ++
              [{| feature :=
                    String.append "authorLocation:"
                                  (nth i LOCATION_VALUES "undefined"%string);
                  weight := get w (index + i); value := None |}]
         else parts)
      (seq 0 (List.length LOCATION_VALUES)) parts in
  {| contrib_bias := b; terms := parts |}.

(** The paths [MODEL_PATH] and [CSV_PATH], resolved from the working
    directory of the process when the module is loaded. *)
Record Paths := {
  MODEL_PATH : string;
  CSV_PATH : string
}.

(** [predictSuccessRate]: the value its promise resolves to, given the
    module's model. *)
Definition predictSuccessRate (model : LogisticRegression) (ideaOrInput : Idea.t)
  : R :=
  let input := normalizeInput ideaOrInput in
  let x := buildFeatures input in
  let prob := predictProba model x in
  clamp01 prob.

Record Explanation := {
  probability : R;
  features : Contributions;
  modelPath : string;
  csvPath : string
}.

Definition getSuccessRateExplanation (paths : Paths) (model : LogisticRegression)
    (ideaOrInput : Idea.t) : Explanation :=
  let input := normalizeInput ideaOrInput in
  let x := buildFeatures input in
  let contributions := perFeatureContributions x (weights model) (bias model) in
  {| probability := clamp01 (predictProba model x);
     features := contributions;
     modelPath := MODEL_PATH paths;
     csvPath := CSV_PATH paths |}.

(** ** The audit export and the start-up *)

(** The code units of the double quote and of the line feed. *)
Definition quote_unit : ascii := "034"%char.
Definition newline : string := String "010"%char EmptyString.

(** The global [replace] of [saveCsv]: every double quote of the string
    is written twice. *)
Fixpoint double_quotes (s : string) : string :=
  match s with
  | EmptyString => EmptyString
  | String c rest =>
      if Ascii.eqb c quote_unit
      then String quote_unit (String quote_unit (double_quotes rest))
      else String c (double_quotes rest)
  end.

(** [s.includes(',')]. *)
Fixpoint includes_comma (s : string) : bool :=
  match s with
  | EmptyString => false
  | String c rest => Ascii.eqb c ","%char || includes_comma rest
  end.

(** The two constants of the loop of [saveCsv]: [r.targetAudience] is a
    string in every row, so [r.targetAudience || ''] is the string. *)
Definition safeAudience (targetAudience : string) : string :=
  double_quotes targetAudience.

Definition maybeQuoted (safeAudience : string) : string :=
  if includes_comma safeAudience
  then String quote_unit (safeAudience ++ String quote_unit EmptyString)
  else safeAudience.

(** The directory [ML_DIR] with its two files, the model and the export. *)
Record ml_files := {
  model_disk : disk;
  csvFile : option string
}.

Section AuditExport.

(** The string of a number, as [Array.prototype.join] writes it. *)
Variable Number_toString : R -> string.

(** The line pushed for one row; [join] writes a missing element as the
    empty string. *)
Definition csv_line (r : RawRow) : string :=
  String.concat ","
    [or_empty (row_category r);
     or_empty (row_authorLocation r);
     Number_toString (row_requiredFunding r);
     maybeQuoted (safeAudience (row_targetAudience r));
     Number_toString (row_success r)].

Definition saveCsv (rows : list RawRow) (files : ml_files) : ml_files :=
  let d := ensureMlDir (model_disk files) in
  let headers :=
    ["category"; "authorLocation"; "requiredFunding"; "targetAudience";
     "success"]%string in
  let lines := [String.concat "," headers] in
  let lines := fold_left (fun lines r => lines ++ [csv_line r]) rows lines in
  {| model_disk := d; csvFile := Some (String.concat newline lines) |}.

(** The module-level [model] and the function [initModel] run at load: the
    model the module ends up with, the files and the heap it leaves, or
    the exception that escapes. *)
Definition initModel (files : ml_files) (h : heap)
  : result (LogisticRegression * ml_files * heap) :=
  let model := new_LogisticRegression featureDim in
  match loadModel model (model_disk files) with
  | Throw e => Throw e
  | Return (true, model) => Return (model, files, h)
  | Return (false, model) =>
      let (dataset, h) := generateSyntheticDataset (Some 1500%nat) (Some 123%Z) h in
      let model :=
        train (X dataset) (y dataset)
              {| learningRate := Some 0.5; epochs := Some 500%nat |} model in
      let files :=
        {| model_disk := saveModel model (model_disk files);
           csvFile := csvFile files |} in
      let files := saveCsv (rawRows dataset) files in
      Return (model, files, h)
  end.

End AuditExport.

(** ** The explanation route (routes/ideas.js) *)

(** [s.split(':')]. *)
Fixpoint split_colon (s : string) : list string :=
  match s with
  | EmptyString => [EmptyString]
  | String c rest =>
      if Ascii.eqb c ":"%char then EmptyString :: split_colon rest
      else match split_colon rest with
           | segment :: segments => String c segment :: segments
           | [] => [String c EmptyString]
           end
  end.

(** An element of an array of strings inside a template literal: a
    missing element is written [undefined]. *)
Definition template_element (l : list string) (i : nat) : string :=
  match nth_error l i with
  | Some s => s
  | None => "undefined"%string
  end.

(** [Math.round]: the nearest whole number, a half going up. *)
Definition Math_round (x : R) : Z := Math_floor (x + 0.5).

Record Factor := {
  factor : string;
  impact : string;
  explanation : string
}.

(** What the loop of the route reads of a term [t]: [t.feature], and
    [t.weight], [None] when it is [undefined]. *)
Record RouteTerm := {
  term_feature : string;
  term_weight : option R
}.

Section ExplanationRoute.

(** The string of a number inside a template literal. *)
Variable Number_toString : R -> string.

(** [Math.round(Math.abs(t.weight) * 100)] inside a template literal: for
    a weight that is [undefined] the number is NaN. *)
Definition pct_text (weight : option R) : string :=
  match weight with
  | Some w => Number_toString (IZR (Math_round (Rabs w * 100)))
  | None => "NaN"%string
  end.

(** The body of the loop of the route [GET /:id/explanation] over the
    terms of the explanation: the factor pushed for the term [t]. *)
Definition factor_of_term (t : RouteTerm) : Factor :=
  let impact :=
    match term_weight t with
    | Some w =>
        (* typeof t.weight === 'number' *)
        if Rle_dec 0 w then "positive"%string else "negative"%string
    | None => "negative"%string
    end in
  let text :=
    if String.prefix "category:" (term_feature t) then
      ("Projects in " ++ template_element (split_colon (term_feature t)) 1 ++
       " category influence the success rate (" ++ impact ++ ").")%string
    else if String.eqb (term_feature t) "requiredFunding(log-normalized)" then
      let pct := pct_text (term_weight t) in
      ("Higher funding requirement reduces success likelihood by ~" ++
       pct ++ "% (relative).")%string
    else if String.eqb (term_feature t) "targetAudienceLength(norm)" then
      let pct := pct_text (term_weight t) in
      ("A clearer target audience description improves success likelihood by ~" ++
       pct ++ "% (relative).")%string
    else if String.prefix "authorLocation:" (term_feature t) then
      ("Founder location " ++ template_element (split_colon (term_feature t)) 1 ++
       " affects feasibility (" ++ impact ++ ").")%string
    else
      (term_feature t ++ " has a " ++ impact ++ " effect.")%string in
  {| factor := term_feature t; impact := impact; explanation := text |}.

(** The array [factors] the route answers with, from the explanation
    [getSuccessRateExplanation] returned.  A term of that explanation
    carries the number [weight t]; it stands for the source's [w[index]]
    when the model has the feature dimension, the reads being in range
    then. *)
Definition explanation_factors (modelExpl : Explanation) : list Factor :=
  fold_left
    (fun factors t =>
       factors ++
       [factor_of_term {| term_feature := feature t;
                          term_weight := Some (weight t) |}])
    (terms (features modelExpl)) [].

End ExplanationRoute.

(** ** The prediction over numbers with NaN and the infinities *)

(** The path of [predictSuccessRate] once more, over the numbers extended
    with [NaN], [Infinity] and [-Infinity], which the real numbers above
    leave out.  Arithmetic on finite numbers stays exact (no rounding, no
    overflow) and the sign of a zero is not represented. *)
Module Ext.

Inductive number : Type :=
| Fin (r : R)
| PosInf
| NegInf
| NaN.

(** [-a], [a + b]. *)
Definition neg (a : number) : number :=
  match a with
  | Fin r => Fin (- r)
  | PosInf => NegInf
  | NegInf => PosInf
  | NaN => NaN
  end.

Definition add (a b : number) : number :=
  match a, b with
  | NaN, _ => NaN
  | _, NaN => NaN
  | Fin x, Fin y => Fin (x + y)
  | PosInf, NegInf => NaN
  | NegInf, PosInf => NaN
  | PosInf, _ => PosInf
  | _, PosInf => PosInf
  | NegInf, _ => NegInf
  | _, NegInf => NegInf
  end.

(** An infinity times the finite number [r]: the sign follows the signs,
    and the product with 0 is NaN. *)
Definition infinity_times (negative : bool) (r : R) : number :=
  if Rlt_dec 0 r then (if negative then NegInf else PosInf)
  else if Rlt_dec r 0 then (if negative then PosInf else NegInf)
  else NaN.

(** [a * b]. *)
Definition mul (a b : number) : number :=
  match a, b with
  | NaN, _ => NaN
  | _, NaN => NaN
  | Fin x, Fin y => Fin (x * y)
  | Fin x, PosInf => infinity_times false x
  | PosInf, Fin x => infinity_times false x
  | Fin x, NegInf => infinity_times true x
  | NegInf, Fin x => infinity_times true x
  | PosInf, PosInf => PosInf
  | NegInf, NegInf => PosInf
  | PosInf, NegInf => NegInf
  | NegInf, PosInf => NegInf
  end.

(** [a / b]; a division of a finite number by 0 gives an infinity of the
    sign of the dividend, or NaN for 0 / 0. *)
Definition div (a b : number) : number :=
  match a, b with
  | NaN, _ => NaN
  | _, NaN => NaN
  | Fin x, Fin y =>
      if Req_dec_T y 0 then infinity_times false x else Fin (x / y)
  | Fin _, PosInf => Fin 0
  | Fin _, NegInf => Fin 0
  | PosInf, Fin y => if Rlt_dec y 0 then NegInf else PosInf
  | NegInf, Fin y => if Rlt_dec y 0 then PosInf else NegInf
  | _, _ => NaN
  end.

(** [Math.exp], [Math.log], [Math.max] and [Math.min]. *)
Definition Math_exp (a : number) : number :=
  match a with
  | Fin r => Fin (exp r)
  | PosInf => PosInf
  | NegInf => Fin 0
  | NaN => NaN
  end.

Definition Math_log (a : number) : number :=
  match a with
  | Fin r =>
      if Rlt_dec 0 r then Fin (ln r)
      else if Req_dec_T r 0 then NegInf else NaN
  | PosInf => PosInf
  | NegInf => NaN
  | NaN => NaN
  end.

Definition Math_max (a b : number) : number :=
  match a, b with
  | NaN, _ => NaN
  | _, NaN => NaN
  | Fin x, Fin y => Fin (Rmax x y)
  | PosInf, _ => PosInf
  | _, PosInf => PosInf
  | NegInf, _ => b
  | _, NegInf => a
  end.

Definition Math_min (a b : number) : number :=
  match a, b with
  | NaN, _ => NaN
  | _, NaN => NaN
  | Fin x, Fin y => Fin (Rmin x y)
  | NegInf, _ => NegInf
  | _, NegInf => NegInf
  | PosInf, _ => b
  | _, PosInf => a
  end.

Definition sigmoid (z : number) : number :=
  div (Fin 1) (add (Fin 1) (Math_exp (neg z))).

Definition clamp01 (v : number) : number :=
  Math_max (Fin 0) (Math_min (Fin 1) v).

(** [n || 0] on the number [n]: NaN is falsy (and so is 0). *)
Definition or_0 (n : number) : number :=
  match n with
  | NaN => Fin 0
  | _ => n
  end.

(** [logNormalize], from the number [Number(x)]. *)
Definition logNormalize (x : number) : number :=
  div (Math_log (add (Fin 1) (Math_max (Fin 0) (or_0 x))))
      (Math_log (add (Fin 1) (Fin 1000000))).

(** The object [buildFeatures] reads; [requiredFunding] is the number
    [Number(input.requiredFunding)], NaN for a value that is no numeral. *)
Record FeaturesInput := {
  category : option string;
  requiredFunding : number;
  targetAudience : option string;
  authorLocation : option string
}.

Definition buildFeatures (input : FeaturesInput) : list number :=
  let categoryOneHot := map Fin (oneHot (category input) CATEGORY_VALUES) in
  let locationOneHot :=
    map Fin (oneHot (authorLocation input) LOCATION_VALUES) in
  let funding := logNormalize (requiredFunding input) in
  let audienceLen :=
    Math_min (Fin 1)
      (div (Fin (INR (String.length (or_empty (targetAudience input)))))
           (Fin 200)) in
  categoryOneHot ++ [funding; audienceLen] ++ locationOneHot.

Record LogisticRegression := {
  weights : list number;
  bias : number
}.

(** [x[i]] as an operand: a read out of range is [undefined], which
    arithmetic takes as NaN. *)
Definition get (x : list number) (i : nat) : number := nth i x NaN.

Definition predictProba (this : LogisticRegression) (x : list number)
  : number :=
  let z :=
    fold_left (fun z i => add z (mul (get (weights this) i) (get x i)))
              (seq 0 (List.length (weights this))) (bias this) in
  sigmoid z.

Module Idea.
Record t := {
  category : option string;
  requiredFunding : number;
  targetAudience : option string;
  authorLocation : option string;
  location : option string
}.
End Idea.

Definition normalizeInput (idea : Idea.t) : FeaturesInput :=
  {| category := Idea.category idea;
     requiredFunding := Idea.requiredFunding idea;
     targetAudience := Idea.targetAudience idea;
     authorLocation :=
       or_else (or_else (Idea.authorLocation idea) (Idea.location idea))
               (Some "unknown"%string) |}.

Definition predictSuccessRate (model : LogisticRegression)
    (ideaOrInput : Idea.t) : number :=
  let input := normalizeInput ideaOrInput in
  let x := buildFeatures input in
  let prob := predictProba model x in
  clamp01 prob.

End Ext.

(** * Notions used to state the properties *)

(** ** One-hot blocks and the layout of the feature vector *)

(** The vector of length [n] with a single 1, at position [k]. *)
Definition unit_vector (n k : nat) : list R :=
  map (fun j => if (j =? k)%nat then 1 else 0) (seq 0 n).

(** A one-hot block: exactly one 1, the rest 0. *)
Definition one_hot_block (block : list R) : Prop :=
  exists k, (k < List.length block)%nat /\
            block = unit_vector (List.length block) k.

(** The parts of a feature vector, by position: the category block, the
    funding scalar, the audience scalar, the location block. *)
Definition category_block (fv : list R) : list R :=
  firstn (List.length CATEGORY_VALUES) fv.

Definition funding_entry (fv : list R) : R :=
  nth (List.length CATEGORY_VALUES) fv 0.

Definition audience_entry (fv : list R) : R :=
  nth (List.length CATEGORY_VALUES + 1) fv 0.

Definition location_block (fv : list R) : list R :=
  skipn (List.length CATEGORY_VALUES + 2) fv.

(** ** Sample inputs *)

(** An upper-case category of the set and a location outside the set. *)
Definition sample_input : FeaturesInput :=
  {| category := Some "TECHNOLOGY"%string;
     requiredFunding := Some 0;
     targetAudience := None;
     authorLocation := Some "Mars"%string |}.

(** A funding amount of two million. *)
Definition large_funding_input : FeaturesInput :=
  {| category := Some "technology"%string;
     requiredFunding := Some 2000000;
     targetAudience := Some EmptyString;
     authorLocation := Some "urban"%string |}.

(** An audience text of three code units, and one of 240. *)
Definition short_audience_input : FeaturesInput :=
  {| category := Some "education"%string;
     requiredFunding := Some 5000;
     targetAudience := Some "xxx"%string;
     authorLocation := Some "rural"%string |}.

Definition long_text : string :=
  let s20 := "farmers and teachers"%string in
  let s60 := (s20 ++ s20 ++ s20)%string in
  (s60 ++ s60 ++ s60 ++ s60)%string.

Definition long_audience_input : FeaturesInput :=
  {| category := Some "education"%string;
     requiredFunding := Some 5000;
     targetAudience := Some long_text;
     authorLocation := Some "rural"%string |}.

(** Empty strings, zero funding, no location. *)
Definition degenerate_idea : Idea.t :=
  {| Idea.category := Some EmptyString;
     Idea.requiredFunding := Some 0;
     Idea.targetAudience := Some EmptyString;
     Idea.authorLocation := None;
     Idea.location := None |}.

(** ** Full-batch gradient descent, as the specification words it *)

(** The scalar product of two vectors. *)
Definition dot (w x : list R) : R :=
  fold_right Rplus 0 (map (fun p => fst p * snd p) (combine w x)).

Definition Rsum (l : list R) : R := fold_right Rplus 0 l.

(** The error of every example, predicted probability minus label, under
    the parameters [(w, b)]. *)
Definition batch_errors (w : list R) (b : R) (X : list (list R)) (y : list R)
  : list R :=
  map (fun ex => sigmoid (b + dot w (fst ex)) - snd ex) (combine X y).

(** The gradient sum of weight [j]: error times feature value, summed over
    the examples. *)
Definition gradient_sum (errors : list R) (X : list (list R)) (j : nat) : R :=
  Rsum (map (fun ex => fst ex * get (snd ex) j) (combine errors X)).

(** One epoch: all errors are taken under the parameters the epoch starts
    with, then every weight and the bias move once. *)
Definition batch_step (X : list (list R)) (y : list R) (learningRate : R)
    (m : LogisticRegression) : LogisticRegression :=
  let N := INR (List.length X) in
  let errors := batch_errors (weights m) (bias m) X y in
  {| weights :=
       map (fun j => get (weights m) j - learningRate / N * gradient_sum errors X j)
           (seq 0 (List.length (weights m)));
     bias := bias m - learningRate / N * Rsum errors |}.

Fixpoint batch_descent (X : list (list R)) (y : list R) (learningRate : R)
    (epochs : nat) (m : LogisticRegression) : LogisticRegression :=
  match epochs with
  | O => m
  | S epochs' => batch_descent X y learningRate epochs' (batch_step X y learningRate m)
  end.

(** The learning rate and epoch count a call of [train] runs with. *)
Definition effective_rate (options : TrainOptions) : R :=
  match learningRate options with Some l => l | None => 0.3 end.

Definition effective_epochs (options : TrainOptions) : nat :=
  match epochs options with Some e => e | None => 300%nat end.

(** ** Computations that are deterministic in their generator *)

(** Two heaps agree on two generators when each holds its generator and
    the captured variables are equal. *)
Definition agree (r1 : generator) (h1 : heap) (r2 : generator) (h2 : heap)
  : Prop :=
  (r1 < List.length h1)%nat /\ (r2 < List.length h2)%nat /\
  nth r1 h1 0%Z = nth r2 h2 0%Z.

(** A computation that uses a generator is deterministic in it when, from
    heaps that agree, it returns the same value and leaves heaps that
    agree. *)
Definition deterministic {A : Type} (c : generator -> M A) : Prop :=
  forall r1 h1 r2 h2,
    agree r1 h1 r2 h2 ->
    fst (c r1 h1) = fst (c r2 h2) /\
    agree r1 (snd (c r1 h1)) r2 (snd (c r2 h2)).

(** ** Generated rows *)

(** The input [generateSyntheticDataset] builds from the fields it later
    records in the raw row. *)
Definition row_input (r : RawRow) : FeaturesInput :=
  {| category := row_category r;
     requiredFunding := Some (row_requiredFunding r);
     targetAudience := Some (row_targetAudience r);
     authorLocation := row_authorLocation r |}.

(** A text without a double quote and without a comma. *)
Fixpoint plain (s : string) : bool :=
  match s with
  | EmptyString => true
  | String c rest =>
      negb (Ascii.eqb c quote_unit) && negb (Ascii.eqb c ","%char) && plain rest
  end.

(** What holds of every row the generator samples: category and location
    are entries of their sets, the funding is a whole number from 0 up to
    299999, the audience text is plain and the label is 0 or 1. *)
Definition sampled_row (r : RawRow) : Prop :=
  (exists c, row_category r = Some c /\ In c CATEGORY_VALUES) /\
  (exists l, row_authorLocation r = Some l /\ In l LOCATION_VALUES) /\
  (exists z, row_requiredFunding r = IZR z /\ (0 <= z < 300000)%Z) /\
  plain (row_targetAudience r) = true /\
  (row_success r = 0 \/ row_success r = 1).

(** A computation only advances its generator when the heap it leaves
    differs from the heap it starts in at most in the generator's cell. *)
Definition advances_only {A : Type} (c : generator -> M A) : Prop :=
  forall rand h,
    (rand < List.length h)%nat ->
    exists a, snd (c rand h) = set_cell rand a h.

(** ** Explanations *)

(** What a term of an explanation adds to the score: its weight times its
    value, the value of the term of an active one-hot entry being 1. *)
Definition term_contribution (t : Term) : R :=
  weight t * match value t with Some v => v | None => 1 end.

(** ** The export and the start-up *)

(** The number of double quotes of a text. *)
Fixpoint count_quotes (s : string) : nat :=
  match s with
  | EmptyString => 0%nat
  | String c rest =>
      ((if Ascii.eqb c quote_unit then 1 else 0) + count_quotes rest)%nat
  end.

(** A directory holding a stored model of the right shape. *)
Definition stored_files : ml_files :=
  {| model_disk :=
       {| mlDir := true;
          modelFile :=
            Some (Denotes
                    (JObj [("weights", JArr (repeat (JNum 0.25) featureDim));
                           ("bias", JNum 1)]%string)) |};
     csvFile := None |}.

(** The impact the route reports for a term: [positive] for a weight
    that is not negative. *)
Definition term_impact (t : Term) : string :=
  if Rle_dec 0 (weight t) then "positive"%string else "negative"%string.

(** ** Finite numbers among the extended ones *)

(** A model and an idea of the real-number embedding, read over the
    extended numbers: a missing [requiredFunding] is the NaN that [Number]
    makes of it. *)
Definition finite_model (m : LogisticRegression) : Ext.LogisticRegression :=
  {| Ext.weights := map Ext.Fin (weights m);
     Ext.bias := Ext.Fin (bias m) |}.

Definition finite_idea (idea : Idea.t) : Ext.Idea.t :=
  {| Ext.Idea.category := Idea.category idea;
     Ext.Idea.requiredFunding :=
       match Idea.requiredFunding idea with
       | Some r => Ext.Fin r
       | None => Ext.NaN
       end;
     Ext.Idea.targetAudience := Idea.targetAudience idea;
     Ext.Idea.authorLocation := Idea.authorLocation idea;
     Ext.Idea.location := Idea.location idea |}.

(** The model a file of fourteen zero weights and a zero bias loads as. *)
Definition zero_model : Ext.LogisticRegression :=
  finite_model (new_LogisticRegression featureDim).

(** An idea whose [requiredFunding] is [Infinity], the number the literal
    [1e999] of a request body parses to. *)
Definition infinite_funding_idea : Ext.Idea.t :=
  {| Ext.Idea.category := Some "technology"%string;
     Ext.Idea.requiredFunding := Ext.PosInf;
     Ext.Idea.targetAudience := Some EmptyString;
     Ext.Idea.authorLocation := Some "urban"%string;
     Ext.Idea.location := None |}.

(** * Properties *)

(** ** Lists read by index *)

Lemma length_map_from {A B : Type} (f : A -> Z -> B) (l : list A) :
  forall i, List.length (map_from f i l) = List.length l.
Proof.
  induction l as [|a l IH]; intros i; simpl; [reflexivity|].
  now rewrite IH.
Qed.

Lemma map_from_seq {A B : Type} (g : Z -> B) (l : list A) :
  forall i,
    map_from (fun _ j => g j) i l =
    map (fun j => g (i + Z.of_nat j)%Z) (seq 0 (List.length l)).
Proof.
  induction l as [|a l IH]; intros i; simpl; [reflexivity|].
  f_equal.
  - f_equal. lia.
  - rewrite IH, <- seq_shift, map_map.
    apply map_ext. intros j. f_equal. lia.
Qed.

Lemma length_set_cell {A : Type} (v : A) (l : list A) :
  forall i, List.length (set_cell i v l) = List.length l.
Proof.
  induction l as [|x l IH]; intros [|i]; simpl; auto.
Qed.

Lemma nth_set_cell {A : Type} (v d : A) (l : list A) :
  forall i j,
    nth j (set_cell i v l) d =
    if (j =? i)%nat then (if (i <? List.length l)%nat then v else d)
    else nth j l d.
Proof.
  induction l as [|x l IH]; intros i j; simpl.
  - destruct i, j; simpl; try reflexivity.
    destruct (j =? i)%nat; reflexivity.
  - destruct i as [|i], j as [|j]; simpl; try reflexivity.
    rewrite IH. reflexivity.
Qed.

(** ** The one-hot encoder *)

Lemma length_unit_vector n k : List.length (unit_vector n k) = n.
Proof. unfold unit_vector. now rewrite length_map, length_seq. Qed.

Lemma nth_unit_vector n k j :
  (j < n)%nat -> nth j (unit_vector n k) 0 = if (j =? k)%nat then 1 else 0.
Proof.
  intros Hj. unfold unit_vector.
  set (f := fun j => if (j =? k)%nat then 1 else 0).
  rewrite (nth_indep _ 0 (f 0%nat)) by now rewrite length_map, length_seq.
  rewrite map_nth, seq_nth by assumption. reflexivity.
Qed.

Lemma one_hot_unit_vector n k : (k < n)%nat -> one_hot_block (unit_vector n k).
Proof.
  intros Hk. exists k. rewrite length_unit_vector. auto.
Qed.

Lemma indexOf_from_absent (values : list string) (s : string) :
  ~ In s values -> forall i, indexOf_from i values s = (-1)%Z.
Proof.
  induction values as [|v vs IH]; intros Hs i; simpl; [reflexivity|].
  destruct (String.eqb_spec v s) as [->|_].
  - exfalso. apply Hs. now left.
  - apply IH. intros Hin. apply Hs. now right.
Qed.

Lemma indexOf_from_present (values : list string) (d : string) :
  NoDup values ->
  forall k i, (k < List.length values)%nat ->
              indexOf_from i values (nth k values d) = (i + Z.of_nat k)%Z.
Proof.
  induction 1 as [|v vs Hv Hvs IH]; intros k i Hk; simpl in *.
  - lia.
  - destruct k as [|k].
    + rewrite String.eqb_refl. lia.
    + destruct (String.eqb_spec v (nth k vs d)) as [E|_].
      * exfalso. apply Hv. rewrite E. apply nth_In. lia.
      * rewrite IH by lia. lia.
Qed.

Lemma indexOf_from_found (values : list string) (s : string) :
  In s values ->
  forall i, exists k, (k < List.length values)%nat /\
                      indexOf_from i values s = (i + Z.of_nat k)%Z.
Proof.
  induction values as [|v vs IH]; intros Hin i; simpl in *; [contradiction|].
  destruct (String.eqb_spec v s) as [_|Hne].
  - exists 0%nat. split; lia.
  - destruct Hin as [E|Hin]; [contradiction|].
    destruct (IH Hin (i + 1)%Z) as [k [Hk Hi]].
    exists (S k). split; lia.
Qed.

Section OneHot.

Variable values : list string.
Hypothesis values_distinct : NoDup values.

(** The block is the unit vector at the index the lookup selects. *)
Lemma oneHot_selected (value : option string) (k : nat) :
  (let idx := indexOf values (toLowerCase (or_empty value)) in
   if 0 <=? idx then idx else Z.of_nat (List.length values) - 1)%Z
  = Z.of_nat k ->
  oneHot value values = unit_vector (List.length values) k.
Proof.
  clear values_distinct.
  intros Hk. unfold oneHot, map_index. cbv zeta in Hk. rewrite Hk.
  rewrite (map_from_seq (fun i => if (i =? Z.of_nat k)%Z then 1 else 0)).
  unfold unit_vector. apply map_ext. intros j.
  destruct (Nat.eqb_spec j k) as [->|Hne].
  - now rewrite Z.eqb_refl.
  - destruct (Z.eqb_spec (0 + Z.of_nat j) (Z.of_nat k)); [lia|reflexivity].
Qed.

Lemma oneHot_match (value : option string) (k : nat) :
  (k < List.length values)%nat ->
  toLowerCase (or_empty value) = nth k values EmptyString ->
  oneHot value values = unit_vector (List.length values) k.
Proof.
  intros Hk Hs. apply oneHot_selected. cbv zeta.
  unfold indexOf. rewrite Hs, indexOf_from_present by assumption.
  destruct (Z.leb_spec 0 (0 + Z.of_nat k)); lia.
Qed.

Lemma oneHot_no_match (value : option string) :
  values <> [] ->
  ~ In (toLowerCase (or_empty value)) values ->
  oneHot value values =
  unit_vector (List.length values) (List.length values - 1).
Proof.
  clear values_distinct.
  intros Hne Hs. apply oneHot_selected. cbv zeta.
  unfold indexOf. rewrite indexOf_from_absent by assumption.
  assert (0 < List.length values)%nat
    by (destruct values; simpl; [congruence|lia]).
  simpl. lia.
Qed.

Lemma length_oneHot (value : option string) :
  List.length (oneHot value values) = List.length values.
Proof. clear values_distinct. apply length_map_from. Qed.

End OneHot.

(** Whatever the string, the block is one-hot (the set is not empty). *)
Lemma oneHot_one_hot (values : list string) (value : option string) :
  values <> [] -> one_hot_block (oneHot value values).
Proof.
  intros Hne.
  assert (0 < List.length values)%nat as Hpos
    by (destruct values; simpl; [congruence|lia]).
  destruct (in_dec string_dec (toLowerCase (or_empty value)) values)
    as [Hin|Hout].
  - destruct (indexOf_from_found _ _ Hin 0%Z) as [k [Hk Hi]].
    rewrite (oneHot_selected values value k).
    + now apply one_hot_unit_vector.
    + cbv zeta. unfold indexOf. rewrite Hi.
      destruct (Z.leb_spec 0 (0 + Z.of_nat k)); lia.
  - rewrite oneHot_no_match by assumption.
    apply one_hot_unit_vector. lia.
Qed.


Lemma LOCATION_VALUES_distinct : NoDup LOCATION_VALUES.
Proof.
  unfold LOCATION_VALUES.
  repeat (constructor; [simpl; intuition discriminate|]). constructor.
Qed.

(** ** Layout of the feature vector *)

Lemma buildFeatures_layout (input : FeaturesInput) :
  let fv := buildFeatures input in
  List.length fv = featureDim /\
  category_block fv = oneHot (category input) CATEGORY_VALUES /\
  funding_entry fv = logNormalize (requiredFunding input) /\
  audience_entry fv = audienceFeature (targetAudience input) /\
  location_block fv = oneHot (authorLocation input) LOCATION_VALUES.
Proof.
  cbv zeta. unfold buildFeatures.
  pose proof (length_oneHot CATEGORY_VALUES (category input)) as Hc.
  pose proof (length_oneHot LOCATION_VALUES (authorLocation input)) as Hl.
  set (c := oneHot (category input) CATEGORY_VALUES) in *.
  set (l := oneHot (authorLocation input) LOCATION_VALUES) in *.
  clearbody c l.
  split; [|split; [|split; [|split]]].
  - rewrite !length_app, Hc, Hl. reflexivity.
  - unfold category_block. rewrite <- Hc.
    rewrite firstn_app, firstn_all, Nat.sub_diag. simpl. apply app_nil_r.
  - unfold funding_entry. rewrite <- Hc. apply nth_middle.
  - unfold audience_entry. rewrite <- Hc.
    rewrite (app_nth2_plus c). reflexivity.
  - unfold location_block. rewrite <- Hc.
    rewrite skipn_app, skipn_all2 by lia.
    replace (List.length c + 2 - List.length c)%nat with 2%nat by lia.
    reflexivity.
Qed.

(** ** The scalar features *)

Lemma logNormalize_zero : logNormalize (Some 0) = 0.
Proof.
  unfold logNormalize, Number_or_0.
  rewrite Rmax_left, Rplus_0_r, ln_1 by lra.
  unfold Rdiv. apply Rmult_0_l.
Qed.

(** The vector of a technology idea from an urban author, with no funding
    and no audience text. *)
Example buildFeatures_technology_urban :
  buildFeatures {| category := Some "technology"%string;
                   requiredFunding := Some 0;
                   targetAudience := Some EmptyString;
                   authorLocation := Some "urban"%string |}
  = [0; 0; 0; 1; 0; 0;  0;  0;  1; 0; 0; 0; 0; 0].
Proof.
  unfold buildFeatures. cbn [category requiredFunding targetAudience authorLocation].
  rewrite logNormalize_zero.
  replace (audienceFeature (Some EmptyString)) with 0.
  - reflexivity.
  - unfold audienceFeature. simpl. rewrite Rmin_right by lra. lra.
Qed.

Lemma ln_le_mono (x y : R) : 0 < x -> x <= y -> ln x <= ln y.
Proof.
  intros Hx [Hlt | ->].
  - left. now apply ln_increasing.
  - right. reflexivity.
Qed.

Lemma ln_scale_pos : 0 < ln (1 + 1000000).
Proof.
  pose proof (ln_increasing 1 (1 + 1000000)) as Hlt.
  rewrite ln_1 in Hlt. apply Hlt; lra.
Qed.

Lemma logNormalize_nonneg (x : option R) : 0 <= logNormalize x.
Proof.
  unfold logNormalize.
  pose proof ln_scale_pos as Hs.
  pose proof (Rmax_l 0 (Number_or_0 x)) as Hm.
  assert (0 <= ln (1 + Rmax 0 (Number_or_0 x))) as Hn.
  { pose proof (ln_le_mono 1 (1 + Rmax 0 (Number_or_0 x))) as Hle.
    rewrite ln_1 in Hle. apply Hle; lra. }
  apply Rmult_le_pos; [assumption|].
  left. now apply Rinv_0_lt_compat.
Qed.

Lemma logNormalize_le (x y : option R) :
  Rmax 0 (Number_or_0 x) <= Rmax 0 (Number_or_0 y) ->
  logNormalize x <= logNormalize y.
Proof.
  intros Hxy. unfold logNormalize.
  pose proof ln_scale_pos as Hs.
  pose proof (Rmax_l 0 (Number_or_0 x)) as Hm.
  apply Rmult_le_compat_r.
  - left. now apply Rinv_0_lt_compat.
  - apply ln_le_mono; lra.
Qed.

Lemma logNormalize_at_cap : logNormalize (Some 1000000) = 1.
Proof.
  unfold logNormalize, Number_or_0.
  rewrite Rmax_right by lra.
  pose proof ln_scale_pos. now field_simplify_eq; [|lra].
Qed.

Lemma logNormalize_above_cap (r : R) : 1000000 < r -> 1 < logNormalize (Some r).
Proof.
  intros Hr. unfold logNormalize, Number_or_0.
  rewrite Rmax_right by lra.
  pose proof ln_scale_pos as Hs.
  assert (ln (1 + 1000000) < ln (1 + r)) as Hlt by (apply ln_increasing; lra).
  apply (Rmult_lt_reg_r (ln (1 + 1000000))); [assumption|].
  unfold Rdiv. rewrite Rmult_assoc, Rinv_l by lra. lra.
Qed.

Lemma INR_200 : INR 200 = 200.
Proof. rewrite INR_IZR_INZ. reflexivity. Qed.

Lemma audienceFeature_range (audience : option string) :
  0 <= audienceFeature audience <= 1.
Proof.
  unfold audienceFeature. split; [|apply Rmin_l].
  apply Rmin_glb; [lra|].
  pose proof (pos_INR (String.length (or_empty audience))). lra.
Qed.

Lemma unit_vector_entries (n k j : nat) : 0 <= nth j (unit_vector n k) 0 <= 1.
Proof.
  destruct (Nat.lt_ge_cases j n) as [Hj|Hj].
  - rewrite nth_unit_vector by assumption.
    destruct (j =? k)%nat; lra.
  - rewrite nth_overflow by now rewrite length_unit_vector.
    lra.
Qed.

Lemma oneHot_entries (value : option string) (values : list string) (j : nat) :
  0 <= nth j (oneHot value values) 0 <= 1.
Proof.
  destruct values as [|v vs].
  - destruct j; simpl; lra.
  - destruct (oneHot_one_hot (v :: vs) value) as [k [_ ->]]; [discriminate|].
    apply unit_vector_entries.
Qed.



(** C8. The audience feature is [min(1, length / 200)] of the audience
    text: for a text of [n] code units it lies in [0,1], is [n / 200] up
    to 200 code units and 1 from 200 on; a missing [targetAudience] counts
    as the empty string and gives 0. *)
Theorem audience_feature_capped :
  forall input : FeaturesInput,
    let a := audience_entry (buildFeatures input) in
    0 <= a <= 1 /\
    (forall s : string,
        targetAudience input = Some s ->
        a = Rmin 1 (INR (String.length s) / 200) /\
        ((String.length s <= 200)%nat -> a = INR (String.length s) / 200) /\
        ((200 <= String.length s)%nat -> a = 1)) /\
    (targetAudience input = None -> a = 0).
Proof.
  intros input a.
  destruct (buildFeatures_layout input) as (_ & _ & _ & Ha & _).
  fold a in Ha. rewrite Ha.
  split; [apply audienceFeature_range|].
  unfold audienceFeature. split.
  - intros s Hs. rewrite Hs. cbn [or_empty].
    split; [reflexivity|]. split.
    + intros Hn. apply le_INR in Hn. rewrite INR_200 in Hn.
      apply Rmin_right. lra.
    + intros Hn. apply le_INR in Hn. rewrite INR_200 in Hn.
      apply Rmin_left. lra.
  - intros Hnone. rewrite Hnone. simpl.
    rewrite Rmin_right by lra. lra.
Qed.

Lemma audience_feature_capped_witness :
  audience_entry (buildFeatures short_audience_input) = INR 3 / 200 /\
  audience_entry (buildFeatures long_audience_input) = 1 /\
  audience_entry (buildFeatures sample_input) = 0.
Proof.
  destruct (audience_feature_capped short_audience_input) as (_ & Hs & _).
  destruct (audience_feature_capped long_audience_input) as (_ & Hl & _).
  destruct (audience_feature_capped sample_input) as (_ & _ & Hn).
  split; [|split].
  - apply (Hs "xxx"%string); [reflexivity|simpl; lia].
  - apply (Hl long_text); [reflexivity|].
    vm_compute. lia.
  - apply Hn. reflexivity.
Defined.

(** C9. The funding feature does not decrease when [requiredFunding]
    grows, over the non-negative amounts. *)
Theorem funding_feature_monotone :
  forall a b : R,
    0 <= a -> a <= b -> logNormalize (Some a) <= logNormalize (Some b).
Proof.
  intros a b Ha Hab. apply logNormalize_le. simpl.
  rewrite !Rmax_right by lra. assumption.
Qed.

Lemma funding_feature_monotone_witness :
  logNormalize (Some 1000) <= logNormalize (Some 250000).
Proof.
  apply (funding_feature_monotone 1000 250000); lra.
Defined.

(** ** The invariant of the feature vector *)

(** C5, as stated, fails: with a funding of two million the funding entry
    is above 1. *)
Lemma feature_entries_bounded_counterexample :
  ~ Forall (fun v => 0 <= v <= 1) (buildFeatures large_funding_input).
Proof.
  intros Hall.
  destruct (buildFeatures_layout large_funding_input) as (Hlen & _ & Hf & _).
  assert (0 <= funding_entry (buildFeatures large_funding_input) <= 1) as Hb.
  { unfold funding_entry.
    apply (proj1 (Forall_forall _ _) Hall), nth_In.
    rewrite Hlen. unfold featureDim. simpl. lia. }
  rewrite Hf in Hb.
  pose proof (logNormalize_above_cap 2000000) as Habove.
  simpl in Hb. lra.
Qed.

(** C5, amended. Both one-hot blocks hold exactly one 1 and otherwise 0;
    every entry but the funding entry lies in [0,1]; the funding entry is
    not negative, is at most 1 for amounts up to one million and above 1
    for larger amounts. *)
Theorem feature_vector_invariant :
  forall input : FeaturesInput,
    let fv := buildFeatures input in
    one_hot_block (category_block fv) /\
    one_hot_block (location_block fv) /\
    (forall j, (j < List.length fv)%nat -> j <> List.length CATEGORY_VALUES ->
               0 <= nth j fv 0 <= 1) /\
    0 <= funding_entry fv /\
    (Number_or_0 (requiredFunding input) <= 1000000 -> funding_entry fv <= 1) /\
    (1000000 < Number_or_0 (requiredFunding input) -> 1 < funding_entry fv).
Proof.
  intros input fv.
  destruct (buildFeatures_layout input) as (Hlen & Hc & Hf & Ha & Hl).
  fold fv in Hlen, Hc, Hf, Ha, Hl.
  rewrite Hc, Hl, Hf.
  split; [apply oneHot_one_hot; discriminate|].
  split; [apply oneHot_one_hot; discriminate|].
  split; [|split; [|split]].
  - intros j Hj Hne. subst fv. unfold buildFeatures.
    pose proof (length_oneHot CATEGORY_VALUES (category input)) as Hlc.
    destruct (Nat.lt_ge_cases j (List.length CATEGORY_VALUES)) as [Hlt|Hge].
    + rewrite app_nth1 by lia. apply oneHot_entries.
    + rewrite app_nth2 by lia. rewrite Hlc.
      remember (j - List.length CATEGORY_VALUES)%nat as i eqn:Hi.
      destruct i as [|[|i]]; [lia| |].
      * cbn [nth app]. apply audienceFeature_range.
      * cbn [nth app]. apply oneHot_entries.
  - apply logNormalize_nonneg.
  - intros Hle.
    rewrite <- logNormalize_at_cap. apply logNormalize_le. simpl.
    apply Rmax_lub; [apply Rmax_l|].
    eapply Rle_trans; [exact Hle|apply Rmax_r].
  - intros Hlt. destruct (requiredFunding input) as [r|]; simpl in Hlt.
    + now apply logNormalize_above_cap.
    + lra.
Qed.

Lemma feature_vector_invariant_witness :
  funding_entry (buildFeatures sample_input) <= 1 /\
  1 < funding_entry (buildFeatures large_funding_input).
Proof.
  split.
  - destruct (feature_vector_invariant sample_input) as (_ & _ & _ & _ & H & _).
    apply H. simpl. lra.
  - destruct (feature_vector_invariant large_funding_input)
      as (_ & _ & _ & _ & _ & H).
    apply H. simpl. lra.
Defined.

(** ** Scoring *)

Lemma fold_left_map_S {A : Type} (g : A -> nat -> A) (l : list nat) :
  forall a, fold_left g (map S l) a = fold_left (fun a i => g a (S i)) l a.
Proof.
  induction l as [|i l IH]; intros a; simpl; [reflexivity|apply IH].
Qed.

Lemma weighted_sum_dot (w : list R) :
  forall (x : list R) (z : R),
    List.length w = List.length x ->
    fold_left (fun z i => z + get w i * get x i) (seq 0 (List.length w)) z =
    z + dot w x.
Proof.
  induction w as [|a w IH]; intros [|b x] z Hlen; simpl in Hlen; try lia.
  - unfold dot. simpl. lra.
  - cbn [List.length seq fold_left].
    rewrite <- seq_shift, fold_left_map_S.
    change (fold_left (fun z i => z + get w i * get x i)
                      (seq 0 (List.length w)) (z + a * b) =
            z + dot (a :: w) (b :: x)).
    rewrite IH by lia.
    unfold dot. simpl. lra.
Qed.

Lemma predictProba_dot (this : LogisticRegression) (x : list R) :
  List.length (weights this) = List.length x ->
  predictProba this x = sigmoid (bias this + dot (weights this) x).
Proof.
  intros Hlen. unfold predictProba. now rewrite weighted_sum_dot.
Qed.

Lemma sigmoid_range (z : R) : 0 < sigmoid z < 1.
Proof.
  unfold sigmoid. pose proof (exp_pos (- z)) as He.
  split.
  - apply Rdiv_lt_0_compat; lra.
  - apply (Rmult_lt_reg_r (1 + exp (- z))); [lra|].
    unfold Rdiv. rewrite Rmult_assoc, Rinv_l by lra. lra.
Qed.

Lemma clamp01_range (v : R) : 0 <= clamp01 v <= 1.
Proof.
  unfold clamp01. split; [apply Rmax_l|].
  apply Rmax_lub; [lra|apply Rmin_l].
Qed.

Lemma clamp01_id (v : R) : 0 <= v <= 1 -> clamp01 v = v.
Proof.
  intros [H0 H1]. unfold clamp01.
  rewrite Rmin_right by assumption. now apply Rmax_right.
Qed.

(** C10. The probability that [getSuccessRateExplanation] reports is the
    value [predictSuccessRate] returns, for the same model and idea. *)
Theorem explanation_probability_consistent :
  forall (paths : Paths) (model : LogisticRegression) (idea : Idea.t),
    probability (getSuccessRateExplanation paths model idea) =
    predictSuccessRate model idea.
Proof.
  intros paths model idea. reflexivity.
Qed.

(** ** The model store *)

Lemma loadModel_no_file (this : LogisticRegression) (dir : bool) :
  loadModel this {| mlDir := dir; modelFile := None |} = Return (false, this).
Proof. reflexivity. Qed.

(** A stored object without an array under "weights" is refused. *)
Lemma loadModel_weights_not_array (this : LogisticRegression) (d : disk)
    (fields : list (string * json)) :
  modelFile d = Some (Denotes (JObj fields)) ->
  (forall ws, lookup "weights" fields <> Some (JArr ws)) ->
  loadModel this d = Return (false, this).
Proof.
  intros Hfile Hw. unfold loadModel. rewrite Hfile. simpl.
  destruct (lookup "weights" fields) as [[| | | |ws|]|]; try reflexivity.
  now destruct (Hw ws).
Qed.

(** A stored object without a number under "bias" is refused. *)
Lemma loadModel_bias_not_number (this : LogisticRegression) (d : disk)
    (fields : list (string * json)) :
  modelFile d = Some (Denotes (JObj fields)) ->
  (forall b, lookup "bias" fields <> Some (JNum b)) ->
  loadModel this d = Return (false, this).
Proof.
  intros Hfile Hb. unfold loadModel. rewrite Hfile. simpl.
  destruct (lookup "weights" fields) as [[| | | |ws|]|]; try reflexivity.
  destruct (lookup "bias" fields) as [[| |b| | |]|]; try reflexivity.
  now destruct (Hb b).
Qed.

(** A stored weight vector of another length is refused. *)
Lemma loadModel_wrong_length (this : LogisticRegression) (d : disk)
    (fields : list (string * json)) (ws : list json) :
  modelFile d = Some (Denotes (JObj fields)) ->
  lookup "weights" fields = Some (JArr ws) ->
  List.length ws <> List.length (weights this) ->
  loadModel this d = Return (false, this).
Proof.
  intros Hfile Hw Hlen. unfold loadModel. rewrite Hfile. simpl. rewrite Hw.
  destruct (lookup "bias" fields) as [[| |b| | |]|]; try reflexivity.
  destruct (Nat.eqb_spec (List.length ws) (List.length (weights this)));
    [contradiction|reflexivity].
Qed.

(** Five stored weights against a model of dimension 12. *)
Example loadModel_5_against_12 :
  loadModel (new_LogisticRegression 12)
    {| mlDir := true;
       modelFile :=
         Some (Denotes (JObj [("weights", JArr (repeat (JNum 0) 5));
                              ("bias", JNum 0)]%string)) |}
  = Return (false, new_LogisticRegression 12).
Proof. reflexivity. Qed.

(** The elements of the stored array are not inspected: an array of the
    right length is adopted even when it holds strings. *)
Lemma loadModel_elements_unchecked :
  exists this',
    loadModel (new_LogisticRegression 2)
      {| mlDir := true;
         modelFile :=
           Some (Denotes (JObj [("weights", JArr [JStr "a"; JStr "b"]);
                                ("bias", JNum 0)]%string)) |}
    = Return (true, this').
Proof. eexists. reflexivity. Qed.

(** Whatever the file holds, a call that returns leaves a model of the
    dimension it was given. *)
Lemma loadModel_dimension (this this' : LogisticRegression) (d : disk)
    (loaded : bool) :
  loadModel this d = Return (loaded, this') ->
  List.length (weights this') = List.length (weights this).
Proof.
  unfold loadModel.
  destruct (modelFile d) as [[|data]|]; simpl; try congruence.
  destruct (get_property data "weights") as [[[| | | |ws|]|]|]; try congruence.
  destruct (get_property data "bias") as [[[| |b| | |]|]|]; try congruence.
  destruct (Nat.eqb_spec (List.length ws) (List.length (weights this)));
    simpl; intros E; inversion E; subst; simpl; [|reflexivity].
  now rewrite length_map.
Qed.

(** The stored text [null] parses, and reading its property throws. *)
Lemma loadModel_null_throws (this : LogisticRegression) (dir : bool) :
  loadModel this {| mlDir := dir; modelFile := Some (Denotes JNull) |}
  = Throw TypeError.
Proof. reflexivity. Qed.

(** C3. A model file whose content is not JSON makes [loadModel] throw the
    [SyntaxError] of [JSON.parse]: it does not return [false]. *)
Theorem loadModel_unparsable_throws :
  forall (this : LogisticRegression) (dir : bool),
    loadModel this {| mlDir := dir; modelFile := Some NotJson |}
    = Throw SyntaxError.
Proof. intros this dir. reflexivity. Qed.

Lemma map_ToNumber_JNum (ws : list R) : map ToNumber (map JNum ws) = ws.
Proof.
  induction ws as [|w ws IH]; simpl; [reflexivity|now rewrite IH].
Qed.

(** C7. After [saveModel], [loadModel] into an instance with as many
    weights succeeds and installs exactly the saved weights and bias. *)
Theorem save_then_load :
  forall (saved this : LogisticRegression) (d : disk),
    List.length (weights this) = List.length (weights saved) ->
    loadModel this (saveModel saved d) = Return (true, saved).
Proof.
  intros [ws b] this d Hlen. simpl in Hlen.
  unfold loadModel, saveModel. simpl.
  rewrite length_map, Hlen, Nat.eqb_refl. simpl.
  now rewrite map_ToNumber_JNum.
Qed.

Lemma save_then_load_witness :
  loadModel (new_LogisticRegression 3)
            (saveModel {| weights := [1; -2; 0.5]; bias := 0.25 |}
                       {| mlDir := false; modelFile := None |})
  = Return (true, {| weights := [1; -2; 0.5]; bias := 0.25 |}).
Proof.
  apply (save_then_load {| weights := [1; -2; 0.5]; bias := 0.25 |}
                        (new_LogisticRegression 3)).
  reflexivity.
Defined.

(** ** The trainer *)

(** A loop that rewrites every cell of an array from its own content. *)
Lemma fold_set_cell_tail {A : Type} (d0 : A) (F : nat -> A -> A) (l : list nat) :
  forall (h : A) (t : list A),
    fold_left (fun g j => set_cell j (F j (nth j g d0)) g) (map S l) (h :: t) =
    h :: fold_left (fun g j => set_cell j (F (S j) (nth j g d0)) g) l t.
Proof.
  induction l as [|i l IH]; intros h t; simpl; [reflexivity|].
  apply IH.
Qed.

Lemma pointwise_loop {A : Type} (d0 : A) (g : list A) :
  forall F : nat -> A -> A,
    fold_left (fun g j => set_cell j (F j (nth j g d0)) g)
              (seq 0 (List.length g)) g =
    map (fun j => F j (nth j g d0)) (seq 0 (List.length g)).
Proof.
  induction g as [|a g IH]; intros F; [reflexivity|].
  cbn [List.length seq fold_left map set_cell nth].
  rewrite <- seq_shift, fold_set_cell_tail, map_map.
  f_equal. apply (IH (fun j => F (S j))).
Qed.

Lemma pointwise_loop_get (g : list R) (F : nat -> R -> R) :
  fold_left (fun g j => set_cell j (F j (get g j)) g)
            (seq 0 (List.length g)) g =
  map (fun j => F j (get g j)) (seq 0 (List.length g)).
Proof. exact (pointwise_loop 0 g F). Qed.

Lemma map_nth_seq {A : Type} (d0 : A) (l : list A) :
  map (fun j => nth j l d0) (seq 0 (List.length l)) = l.
Proof.
  induction l as [|a l IH]; [reflexivity|].
  cbn [List.length seq map nth].
  rewrite <- seq_shift, map_map. f_equal. exact IH.
Qed.

Lemma get_map_seq (F : nat -> R) (n j : nat) :
  (j < n)%nat -> get (map F (seq 0 n)) j = F j.
Proof.
  intros Hj. unfold get.
  rewrite (nth_indep _ 0 (F 0%nat)) by now rewrite length_map, length_seq.
  rewrite map_nth, seq_nth by assumption. reflexivity.
Qed.

(** The sum over the indices of a pair of arrays is the sum over the
    pairs. *)
Lemma index_sum_combine {A B : Type} (da : A) (db : B) (F : A -> B -> R)
    (l1 : list A) :
  forall l2 : list B,
    List.length l2 = List.length l1 ->
    Rsum (map (fun i => F (nth i l1 da) (nth i l2 db)) (seq 0 (List.length l1))) =
    Rsum (map (fun p => F (fst p) (snd p)) (combine l1 l2)).
Proof.
  unfold Rsum.
  induction l1 as [|a l1 IH]; intros [|b l2] Hlen; simpl in Hlen; try lia.
  - reflexivity.
  - cbn [List.length seq map combine fold_right fst snd nth].
    rewrite <- seq_shift, map_map.
    f_equal. apply IH. lia.
Qed.

Section Epoch.

Variables (X : list (list R)) (y : list R) (learningRate : R).
Variable this : LogisticRegression.

Let d := List.length (weights this).
Let err (i : nat) : R := predictProba this (nth i X []) - get y i.

(** The accumulators after the examples of [l]. *)
Lemma train_examples_sum (l : list nat) :
  forall (gradW : list R) (gradB : R),
    List.length gradW = d ->
    fold_left (train_example this X y) l (gradW, gradB) =
    (map (fun j => get gradW j +
                   Rsum (map (fun i => err i * get (nth i X []) j) l))
         (seq 0 d),
     gradB + Rsum (map err l)).
Proof.
  induction l as [|i l IH]; intros gradW gradB Hlen.
  - simpl. f_equal; [|lra].
    rewrite <- (map_ext (fun j => nth j gradW 0)).
    + subst d. rewrite <- Hlen. symmetry. apply map_nth_seq.
    + intros j. unfold get. simpl. lra.
  - cbn [fold_left]. unfold train_example at 2.
    fold (err i). fold d. rewrite <- Hlen at 1.
    rewrite (pointwise_loop_get gradW
               (fun j v => v + err i * get (nth i X []) j)).
    rewrite IH by now rewrite length_map, length_seq.
    rewrite Hlen. f_equal.
    + apply map_ext_in. intros j Hj. apply in_seq in Hj.
      rewrite get_map_seq by lia. unfold get. simpl. lra.
    + simpl. lra.
Qed.

End Epoch.

Lemma combine_map_self {A B C : Type} (E : A * B -> C) (G : C -> A -> R)
    (l1 : list A) :
  forall l2 : list B,
    List.length l2 = List.length l1 ->
    map (fun ex => G (fst ex) (snd ex)) (combine (map E (combine l1 l2)) l1) =
    map (fun p => G (E p) (fst p)) (combine l1 l2).
Proof.
  induction l1 as [|a l1 IH]; intros [|b l2] Hlen; simpl in Hlen; try lia.
  - reflexivity.
  - simpl. f_equal. apply IH. lia.
Qed.

Lemma train_epoch_batch_step (X : list (list R)) (y : list R)
    (learningRate : R) (this : LogisticRegression) :
  Forall (fun x => List.length x = List.length (weights this)) X ->
  List.length y = List.length X ->
  train_epoch X y learningRate this = batch_step X y learningRate this.
Proof.
  intros Hrows Hy.
  assert (forall p, In p (combine X y) ->
                    predictProba this (fst p) =
                    sigmoid (bias this + dot (weights this) (fst p))) as Hp.
  { intros [x l] Hin. apply in_combine_l in Hin. simpl.
    apply predictProba_dot. symmetry.
    exact (proj1 (Forall_forall _ _) Hrows x Hin). }
  unfold train_epoch.
  rewrite train_examples_sum by apply repeat_length.
  set (gradW := map _ (seq 0 (List.length (weights this)))).
  rewrite (pointwise_loop_get (weights this)
             (fun j v => v - learningRate / INR (List.length X) * get gradW j)).
  unfold batch_step. f_equal.
  - apply map_ext_in. intros j Hj. apply in_seq in Hj.
    subst gradW. rewrite get_map_seq by lia.
    replace (get (repeat 0 (List.length (weights this))) j) with 0
      by (unfold get; now rewrite nth_repeat).
    change (Rsum (map (fun i => (predictProba this (nth i X []) - get y i) *
                                get (nth i X []) j)
                      (seq 0 (List.length X))))
      with (Rsum (map (fun i => (predictProba this (nth i X []) - nth i y 0) *
                                get (nth i X []) j)
                      (seq 0 (List.length X)))).
    rewrite (index_sum_combine [] 0
               (fun x l => (predictProba this x - l) * get x j) X y Hy).
    unfold gradient_sum, batch_errors.
    rewrite (combine_map_self _ (fun e x => e * get x j) X y Hy).
    rewrite (map_ext_in _ (fun p => (sigmoid (bias this + dot (weights this) (fst p))
                                     - snd p) * get (fst p) j))
      by (intros p Hin; now rewrite (Hp p Hin)).
    lra.
  - change (Rsum (map (fun i => predictProba this (nth i X []) - get y i)
                      (seq 0 (List.length X))))
      with (Rsum (map (fun i => predictProba this (nth i X []) - nth i y 0)
                      (seq 0 (List.length X)))).
    rewrite (index_sum_combine [] 0 (fun x l => predictProba this x - l) X y Hy).
    unfold batch_errors.
    rewrite (map_ext_in _ (fun ex => sigmoid (bias this + dot (weights this) (fst ex))
                                     - snd ex))
      by (intros p Hin; now rewrite (Hp p Hin)).
    lra.
Qed.

Lemma length_batch_step (X : list (list R)) (y : list R) (learningRate : R)
    (m : LogisticRegression) :
  List.length (weights (batch_step X y learningRate m)) = List.length (weights m).
Proof. unfold batch_step. simpl. now rewrite length_map, length_seq. Qed.

Lemma train_epochs_batch_descent (X : list (list R)) (y : list R)
    (learningRate : R) (l : list nat) :
  forall this : LogisticRegression,
    Forall (fun x => List.length x = List.length (weights this)) X ->
    List.length y = List.length X ->
    fold_left (fun this _epoch => train_epoch X y learningRate this) l this =
    batch_descent X y learningRate (List.length l) this.
Proof.
  induction l as [|e l IH]; intros this Hrows Hy; [reflexivity|].
  cbn [fold_left List.length batch_descent].
  rewrite train_epoch_batch_step by assumption.
  apply IH; [|assumption].
  now rewrite length_batch_step.
Qed.

Lemma length_batch_descent (X : list (list R)) (y : list R) (learningRate : R)
    (epochs : nat) :
  forall m,
    List.length (weights (batch_descent X y learningRate epochs m)) =
    List.length (weights m).
Proof.
  induction epochs as [|e IH]; intros m; simpl; [reflexivity|].
  now rewrite IH, length_batch_step.
Qed.

(** C4. On a non-empty data set whose rows have the model's dimension and
    one label per row, [train] is full-batch gradient descent: it runs the
    given number of epochs, each taking every error under the epoch's
    starting parameters and moving each weight and the bias once, by
    [learningRate / N] times the gradient sum. *)
Theorem train_is_batch_descent :
  forall (X : list (list R)) (y : list R) (options : TrainOptions)
         (this : LogisticRegression),
    X <> [] ->
    Forall (fun x => List.length x = List.length (weights this)) X ->
    List.length y = List.length X ->
    train X y options this =
    batch_descent X y (effective_rate options) (effective_epochs options) this.
Proof.
  intros X y options this _ Hrows Hy. unfold train.
  rewrite train_epochs_batch_descent by assumption.
  now rewrite length_seq.
Qed.

Lemma train_is_batch_descent_witness :
  train [[1; 0]; [0; 1]] [1; 0] {| learningRate := Some 0.5; epochs := Some 2%nat |}
        (new_LogisticRegression 2) =
  batch_descent [[1; 0]; [0; 1]] [1; 0] 0.5 2 (new_LogisticRegression 2).
Proof.
  apply (train_is_batch_descent [[1; 0]; [0; 1]] [1; 0]
           {| learningRate := Some 0.5; epochs := Some 2%nat |}
           (new_LogisticRegression 2)).
  - discriminate.
  - repeat constructor.
  - reflexivity.
Defined.

(** ** Determinism of the generator *)

(** The first two calls of the generator seeded with 123: the captured
    variable and the numerator returned. *)
Example mulberry32_step_123 :
  mulberry32_step 123 = (1831565936, 3381219976)%Z /\
  mulberry32_step 1831565936 = (3663131749, 766838775)%Z.
Proof. split; reflexivity. Qed.

Lemma deterministic_ret {A : Type} (a : A) : deterministic (fun _ => ret a).
Proof. intros r1 h1 r2 h2 H. split; [reflexivity|exact H]. Qed.

Lemma deterministic_bind {A B : Type} (c : generator -> M A)
    (k : A -> generator -> M B) :
  deterministic c ->
  (forall a, deterministic (k a)) ->
  deterministic (fun rand => bind (c rand) (fun a => k a rand)).
Proof.
  intros Hc Hk r1 h1 r2 h2 H. unfold bind.
  destruct (Hc r1 h1 r2 h2 H) as [Hv Hh].
  destruct (c r1 h1) as [a1 h1'], (c r2 h2) as [a2 h2'].
  simpl in Hv, Hh. subst a2.
  exact (Hk a1 r1 h1' r2 h2' Hh).
Qed.

Lemma deterministic_call : deterministic call.
Proof.
  intros r1 h1 r2 h2 (H1 & H2 & Ha). unfold call. rewrite Ha.
  destruct (mulberry32_step (nth r2 h2 0%Z)) as [a u]. simpl.
  split; [reflexivity|].
  unfold agree. rewrite !length_set_cell, !nth_set_cell, !Nat.eqb_refl.
  destruct (Nat.ltb_spec r1 (List.length h1)); [|lia].
  destruct (Nat.ltb_spec r2 (List.length h2)); [|lia].
  auto.
Qed.

Lemma deterministic_randomAudience_loop (count : nat) :
  forall s, deterministic (fun rand => randomAudience_loop rand count s).
Proof.
  induction count as [|count IH]; intros s; simpl.
  - apply deterministic_ret.
  - apply (deterministic_bind call); [apply deterministic_call|].
    intros r. apply IH.
Qed.

Lemma deterministic_randomAudience : deterministic randomAudience.
Proof.
  unfold randomAudience.
  apply (deterministic_bind call); [apply deterministic_call|].
  intros r.
  apply (deterministic_bind
           (fun rand => randomAudience_loop rand _ [])
           (fun s _ => ret (String.concat " " s))).
  - apply deterministic_randomAudience_loop.
  - intros s. apply deterministic_ret.
Qed.

Lemma deterministic_generate_sample (acc : Dataset) :
  deterministic (fun rand => generate_sample rand acc).
Proof.
  unfold generate_sample.
  apply (deterministic_bind call); [apply deterministic_call|]. intros r1.
  apply (deterministic_bind call); [apply deterministic_call|]. intros r2.
  apply (deterministic_bind call); [apply deterministic_call|]. intros r3.
  apply (deterministic_bind randomAudience);
    [apply deterministic_randomAudience|]. intros targetAudience.
  apply (deterministic_bind call); [apply deterministic_call|]. intros r4.
  apply deterministic_ret.
Qed.

Lemma deterministic_generate_loop (count : nat) :
  forall acc, deterministic (fun rand => generate_loop rand count acc).
Proof.
  induction count as [|count IH]; intros acc; simpl.
  - apply deterministic_ret.
  - apply (deterministic_bind (fun rand => generate_sample rand acc)).
    + apply deterministic_generate_sample.
    + intros acc'. apply IH.
Qed.

Lemma agree_fresh (a : Z) (h1 h2 : heap) :
  agree (List.length h1) (h1 ++ [a]) (List.length h2) (h2 ++ [a]).
Proof.
  unfold agree. rewrite !length_app, !nth_middle. simpl.
  repeat split; lia.
Qed.

(** C6. A call of [generateSyntheticDataset] returns a data set that
    depends on the count and the seed only: from any two heaps, whatever
    generators earlier calls left there, the same arguments give the same
    feature vectors, labels and raw rows. *)
Theorem generateSyntheticDataset_deterministic :
  forall (numSamples : option nat) (seed : option Z) (h1 h2 : heap),
    fst (generateSyntheticDataset numSamples seed h1) =
    fst (generateSyntheticDataset numSamples seed h2).
Proof.
  intros numSamples seed h1 h2.
  unfold generateSyntheticDataset, bind, mulberry32.
  apply deterministic_generate_loop, agree_fresh.
Qed.

(** In particular a second call, made in the heap the first one leaves,
    returns what the first returned. *)
Corollary generateSyntheticDataset_repeatable (numSamples : option nat)
    (seed : option Z) (h : heap) :
  let first := generateSyntheticDataset numSamples seed h in
  fst (generateSyntheticDataset numSamples seed (snd first)) = fst first.
Proof.
  cbv zeta. apply deterministic_generate_loop, agree_fresh.
Qed.

(** * Further properties *)

(** ** The generator closure *)

Lemma mulberry32_step_numerator (a : Z) :
  (0 <= snd (mulberry32_step a) < 4294967296)%Z.
Proof.
  unfold mulberry32_step. cbv zeta. cbn [snd].
  unfold ushr32 at 1. rewrite Z.shiftr_0_r.
  unfold ToUint32. apply Z.mod_pos_bound. lia.
Qed.

(** What a call returns is a 32-bit numerator over 2^32. *)
Lemma call_numerator (rand : generator) (h : heap) :
  exists u, (0 <= u < 4294967296)%Z /\ fst (call rand h) = IZR u / 4294967296.
Proof.
  unfold call.
  pose proof (mulberry32_step_numerator (nth rand h 0%Z)) as Hu.
  destruct (mulberry32_step (nth rand h 0%Z)) as [a u]. cbn [fst snd] in *.
  now exists u.
Qed.

Lemma numerator_unit_interval (u : Z) :
  (0 <= u < 4294967296)%Z -> 0 <= IZR u / 4294967296 < 1.
Proof.
  intros [H0 H1]. apply IZR_le in H0. apply IZR_lt in H1.
  split.
  - apply Rmult_le_pos; [assumption|]. left. apply Rinv_0_lt_compat. lra.
  - apply (Rmult_lt_reg_r 4294967296); [lra|].
    unfold Rdiv. rewrite Rmult_assoc, Rinv_l by lra. lra.
Qed.

(** X1. Every call of a generator returns a number in [0,1), whatever the
    seed and however often the generator was called before. *)
Theorem call_range :
  forall (rand : generator) (h : heap), 0 <= fst (call rand h) < 1.
Proof.
  intros rand h.
  destruct (call_numerator rand h) as (u & Hu & ->).
  now apply numerator_unit_interval.
Qed.

(** X2. Generators do not interfere: what a generator returns next is not
    changed by a call of another generator, nor by the creation of a new
    one. *)
Theorem generators_independent :
  forall (r r' : generator) (a : Z) (h : heap),
    (r <> r' -> fst (call r' (snd (call r h))) = fst (call r' h)) /\
    ((r' < List.length h)%nat ->
     fst (call r' (snd (mulberry32 a h))) = fst (call r' h)).
Proof.
  intros r r' a h. split.
  - intros Hne. unfold call at 2.
    destruct (mulberry32_step (nth r h 0%Z)) as [a1 u1]. cbn [snd].
    unfold call. rewrite nth_set_cell.
    destruct (Nat.eqb_spec r' r) as [E|_]; [congruence|]. reflexivity.
  - intros Hlt. unfold mulberry32. cbn [snd].
    unfold call. now rewrite app_nth1.
Qed.

Lemma generators_independent_witness :
  fst (call 1%nat (snd (call 0%nat [5; 7]%Z))) = fst (call 1%nat [5; 7]%Z) /\
  fst (call 0%nat (snd (mulberry32 9 [5; 7]%Z))) = fst (call 0%nat [5; 7]%Z).
Proof.
  destruct (generators_independent 0%nat 1%nat 9 [5; 7]%Z) as [H1 _].
  destruct (generators_independent 0%nat 0%nat 9 [5; 7]%Z) as [_ H2].
  split.
  - apply H1. discriminate.
  - apply H2. simpl. lia.
Defined.

Lemma set_cell_same {A : Type} (d : A) (l : list A) :
  forall i, set_cell i (nth i l d) l = l.
Proof.
  induction l as [|x l IH]; intros [|i]; simpl; try reflexivity.
  now rewrite IH.
Qed.

Lemma set_cell_twice {A : Type} (a b : A) (l : list A) :
  forall i, set_cell i a (set_cell i b l) = set_cell i a l.
Proof.
  induction l as [|x l IH]; intros [|i]; simpl; try reflexivity.
  now rewrite IH.
Qed.

Lemma set_cell_last {A : Type} (a b : A) (l : list A) :
  set_cell (List.length l) a (l ++ [b]) = l ++ [a].
Proof.
  induction l as [|x l IH]; simpl; [reflexivity|now rewrite IH].
Qed.

Lemma advances_only_ret {A : Type} (a : A) : advances_only (fun _ => ret a).
Proof.
  intros rand h _. exists (nth rand h 0%Z). simpl. symmetry. apply set_cell_same.
Qed.

Lemma advances_only_bind {A B : Type} (c : generator -> M A)
    (k : A -> generator -> M B) :
  advances_only c ->
  (forall a, advances_only (k a)) ->
  advances_only (fun rand => bind (c rand) (fun a => k a rand)).
Proof.
  intros Hc Hk rand h Hlt. unfold bind.
  destruct (Hc rand h Hlt) as [a1 H1].
  destruct (c rand h) as [v h1]. cbn [snd] in H1. subst h1.
  destruct (Hk v rand (set_cell rand a1 h)) as [a2 H2].
  - now rewrite length_set_cell.
  - exists a2. rewrite H2. apply set_cell_twice.
Qed.

Lemma advances_only_call : advances_only call.
Proof.
  intros rand h _. unfold call.
  destruct (mulberry32_step (nth rand h 0%Z)) as [a u].
  exists a. reflexivity.
Qed.

Lemma advances_only_randomAudience_loop (count : nat) :
  forall s, advances_only (fun rand => randomAudience_loop rand count s).
Proof.
  induction count as [|count IH]; intros s; simpl.
  - apply advances_only_ret.
  - apply (advances_only_bind call); [apply advances_only_call|].
    intros r. apply IH.
Qed.

Lemma advances_only_randomAudience : advances_only randomAudience.
Proof.
  unfold randomAudience.
  apply (advances_only_bind call); [apply advances_only_call|].
  intros r.
  apply (advances_only_bind
           (fun rand => randomAudience_loop rand _ [])
           (fun s _ => ret (String.concat " " s))).
  - apply advances_only_randomAudience_loop.
  - intros s. apply advances_only_ret.
Qed.

Lemma advances_only_generate_sample (acc : Dataset) :
  advances_only (fun rand => generate_sample rand acc).
Proof.
  unfold generate_sample.
  apply (advances_only_bind call); [apply advances_only_call|]. intros r1.
  apply (advances_only_bind call); [apply advances_only_call|]. intros r2.
  apply (advances_only_bind call); [apply advances_only_call|]. intros r3.
  apply (advances_only_bind randomAudience);
    [apply advances_only_randomAudience|]. intros targetAudience.
  apply (advances_only_bind call); [apply advances_only_call|]. intros r4.
  apply advances_only_ret.
Qed.

Lemma advances_only_generate_loop (count : nat) :
  forall acc, advances_only (fun rand => generate_loop rand count acc).
Proof.
  induction count as [|count IH]; intros acc; simpl.
  - apply advances_only_ret.
  - apply (advances_only_bind (fun rand => generate_sample rand acc)).
    + apply advances_only_generate_sample.
    + intros acc'. apply IH.
Qed.

(** The loop run on a generator just created touches its cell only. *)
Lemma generate_loop_fresh (count : nat) (acc : Dataset) (s : Z) (h : heap) :
  exists a,
    snd (generate_loop (List.length h) count acc (h ++ [s])) = h ++ [a].
Proof.
  destruct (advances_only_generate_loop count acc (List.length h) (h ++ [s]))
    as [a Ha].
  - rewrite length_app. simpl. lia.
  - exists a. rewrite Ha. apply set_cell_last.
Qed.

(** X3. A call of [generateSyntheticDataset] leaves every generator that
    existed before it as it was: the heap it leaves is the heap it started
    in, followed by the one cell of its own generator. *)
Theorem generateSyntheticDataset_frame :
  forall (numSamples : option nat) (seed : option Z) (h : heap),
    exists a, snd (generateSyntheticDataset numSamples seed h) = h ++ [a].
Proof.
  intros numSamples seed h.
  unfold generateSyntheticDataset, bind, mulberry32.
  apply generate_loop_fresh.
Qed.

(** ** The rows of the synthetic data set *)

Lemma Math_floor_range (r : R) (m : Z) :
  0 <= r < 1 -> (0 < m)%Z -> (0 <= Math_floor (r * IZR m) < m)%Z.
Proof.
  intros [H0 H1] Hm. unfold Math_floor.
  destruct (base_Int_part (r * IZR m)) as [Hle Hgt].
  apply IZR_lt in Hm.
  assert (0 <= r * IZR m) as Hx0 by (apply Rmult_le_pos; lra).
  assert (r * IZR m < IZR m) as Hx1 by nra.
  split.
  - assert (IZR (-1) < IZR (Int_part (r * IZR m))) as Hlt by (simpl; lra).
    apply lt_IZR in Hlt. lia.
  - apply lt_IZR. lra.
Qed.

Lemma floor_index (r : R) (n : nat) :
  0 <= r < 1 -> (0 < n)%nat -> (Z.to_nat (Math_floor (r * INR n)) < n)%nat.
Proof.
  intros Hr Hn. rewrite INR_IZR_INZ.
  pose proof (Math_floor_range r (Z.of_nat n) Hr) as H. lia.
Qed.

Lemma call_unit (rand : generator) (h : heap) (r : R) (h' : heap) :
  call rand h = (r, h') -> 0 <= r < 1.
Proof.
  intros E. destruct (call_numerator rand h) as (u & Hu & Hr).
  rewrite E in Hr. cbn [fst] in Hr. subst r.
  now apply numerator_unit_interval.
Qed.

Lemma sampled_entry (values : list string) (r : R) :
  0 <= r < 1 -> values <> [] ->
  exists v,
    nth_error values (Z.to_nat (Math_floor (r * INR (List.length values))))
    = Some v /\ In v values.
Proof.
  intros Hr Hne.
  assert (0 < List.length values)%nat as Hpos
    by (destruct values; simpl; [congruence|lia]).
  pose proof (floor_index r _ Hr Hpos) as Hi.
  destruct (nth_error values _) as [v|] eqn:E.
  - exists v. split; [reflexivity|]. now apply nth_error_In in E.
  - apply nth_error_None in E. lia.
Qed.

Lemma plain_append (a b : string) :
  plain (a ++ b) = plain a && plain b.
Proof.
  induction a as [|c a IH]; simpl; [reflexivity|].
  rewrite IH. now rewrite !andb_assoc.
Qed.

Lemma plain_concat_space (l : list string) :
  Forall (fun w => plain w = true) l -> plain (String.concat " " l) = true.
Proof.
  induction 1 as [|w l Hw Hl IH]; [reflexivity|].
  simpl. destruct l as [|w' l']; [exact Hw|].
  rewrite plain_append, Hw. simpl plain at 1. exact IH.
Qed.

Lemma audience_words_plain : Forall (fun w => plain w = true) audience_words.
Proof. unfold audience_words. repeat constructor. Qed.

Lemma randomAudience_loop_plain (rand : generator) (count : nat) :
  forall (s : list string) (h : heap),
    Forall (fun w => plain w = true) s ->
    Forall (fun w => plain w = true) (fst (randomAudience_loop rand count s h)).
Proof.
  induction count as [|count IH]; intros s h Hs;
    cbn [randomAudience_loop]; [exact Hs|].
  unfold bind. destruct (call rand h) as [r h1].
  apply IH. apply Forall_app. split; [exact Hs|].
  constructor; [|constructor].
  match goal with
  | |- plain (nth ?k ?l ?d) = true =>
      destruct (nth_in_or_default k l d) as [Hin | ->]; [|reflexivity]
  end.
  exact (proj1 (Forall_forall _ _) audience_words_plain _ Hin).
Qed.

Lemma randomAudience_plain (rand : generator) (h : heap) :
  plain (fst (randomAudience rand h)) = true.
Proof.
  unfold randomAudience, bind.
  destruct (call rand h) as [r h1].
  pose proof (randomAudience_loop_plain rand
                (Z.to_nat (nth (Z.to_nat (Math_floor
                   (r * INR (List.length audience_lengths))))
                   audience_lengths 0%Z / 6)) [] h1 (Forall_nil _)) as Hp.
  destruct (randomAudience_loop rand _ [] h1) as [s h2]. cbn [fst] in *.
  now apply plain_concat_space.
Qed.

(** One sample: the accumulators grow by the vector, the label and the
    raw row of one sampled row. *)
Lemma generate_sample_row (rand : generator) (acc : Dataset) (h : heap) :
  exists row,
    sampled_row row /\
    fst (generate_sample rand acc h) =
    {| X := X acc ++ [buildFeatures (row_input row)];
       y := y acc ++ [row_success row];
       rawRows := rawRows acc ++ [row] |}.
Proof.
  unfold generate_sample, bind.
  destruct (call rand h) as [r1 h1] eqn:E1. apply call_unit in E1 as Hr1.
  destruct (call rand h1) as [r2 h2] eqn:E2. apply call_unit in E2 as Hr2.
  destruct (call rand h2) as [r3 h3] eqn:E3. apply call_unit in E3 as Hr3.
  pose proof (randomAudience_plain rand h3) as Ha.
  destruct (randomAudience rand h3) as [audience h4]. cbn [fst] in Ha.
  destruct (call rand h4) as [r4 h5].
  cbn [ret fst].
  eexists {| row_category := _; row_authorLocation := _;
             row_requiredFunding := _; row_targetAudience := _;
             row_success := _ |}.
  split; [|reflexivity].
  unfold sampled_row. cbn [row_category row_authorLocation row_requiredFunding
                           row_targetAudience row_success].
  split; [apply sampled_entry; [assumption|discriminate]|].
  split; [apply sampled_entry; [assumption|discriminate]|].
  split.
  - exists (Math_floor (r3 * 300000)). split; [reflexivity|].
    apply (Math_floor_range r3 300000); [assumption|lia].
  - split; [exact Ha|].
    match goal with |- context [Rlt_dec ?a ?b] => destruct (Rlt_dec a b) end;
      auto.
Qed.

Lemma generate_loop_rows (rand : generator) (count : nat) :
  forall (acc : Dataset) (h : heap),
    exists rows,
      List.length rows = count /\
      Forall sampled_row rows /\
      fst (generate_loop rand count acc h) =
      {| X := X acc ++ map (fun r => buildFeatures (row_input r)) rows;
         y := y acc ++ map row_success rows;
         rawRows := rawRows acc ++ rows |}.
Proof.
  induction count as [|count IH]; intros acc h.
  - exists []. simpl. rewrite !app_nil_r. destruct acc. auto.
  - cbn [generate_loop]. unfold bind.
    destruct (generate_sample_row rand acc h) as (row & Hrow & Hs).
    destruct (generate_sample rand acc h) as [acc1 h1]. cbn [fst] in Hs.
    destruct (IH acc1 h1) as (rows & Hlen & Hrows & Hl).
    exists (row :: rows). split; [simpl; lia|].
    split; [now constructor|].
    rewrite Hl, Hs. cbn [X y rawRows map].
    now rewrite <- !app_assoc.
Qed.

Lemma generateSyntheticDataset_rows (numSamples : option nat) (seed : option Z)
    (h : heap) :
  let dataset := fst (generateSyntheticDataset numSamples seed h) in
  List.length (rawRows dataset) =
    match numSamples with Some n => n | None => 1200%nat end /\
  Forall sampled_row (rawRows dataset) /\
  X dataset = map (fun r => buildFeatures (row_input r)) (rawRows dataset) /\
  y dataset = map row_success (rawRows dataset).
Proof.
  cbv zeta. unfold generateSyntheticDataset, bind, mulberry32.
  set (n := match numSamples with Some n => n | None => 1200%nat end).
  destruct (generate_loop_rows (List.length h) n
              {| X := []; y := []; rawRows := [] |}
              (h ++ [match seed with Some s => s | None => 42%Z end]))
    as (rows & Hlen & Hrows & Hl).
  rewrite Hl. cbn [X y rawRows app]. auto.
Qed.

(** X4. The data set has exactly the requested number of examples (1200
    when the count is missing): as many feature vectors as labels as raw
    rows, and every feature vector has the feature dimension. *)
Theorem dataset_sizes :
  forall (numSamples : option nat) (seed : option Z) (h : heap),
    let dataset := fst (generateSyntheticDataset numSamples seed h) in
    let count := match numSamples with Some n => n | None => 1200%nat end in
    List.length (X dataset) = count /\
    List.length (y dataset) = count /\
    List.length (rawRows dataset) = count /\
    Forall (fun x => List.length x = featureDim) (X dataset).
Proof.
  intros numSamples seed h dataset count.
  destruct (generateSyntheticDataset_rows numSamples seed h)
    as (Hlen & _ & HX & Hy).
  fold dataset in Hlen, HX, Hy. fold count in Hlen.
  rewrite HX, Hy, !length_map.
  repeat split; try assumption.
  apply Forall_map, Forall_forall. intros r _.
  apply buildFeatures_layout.
Qed.

(** X5. Every raw row of the data set holds a category and a location of
    the closed sets, a whole funding amount from 0 up to 299999, an
    audience text without double quote or comma, and a label 0 or 1. *)
Theorem dataset_rows_sampled :
  forall (numSamples : option nat) (seed : option Z) (h : heap),
    Forall sampled_row
           (rawRows (fst (generateSyntheticDataset numSamples seed h))).
Proof.
  intros numSamples seed h.
  apply (generateSyntheticDataset_rows numSamples seed h).
Qed.

(** X6. The three arrays of the data set line up: the i-th feature vector
    is the encoding of the fields of the i-th raw row, and the i-th label
    is that row's [success]. *)
Theorem dataset_consistent :
  forall (numSamples : option nat) (seed : option Z) (h : heap),
    let dataset := fst (generateSyntheticDataset numSamples seed h) in
    X dataset = map (fun r => buildFeatures (row_input r)) (rawRows dataset) /\
    y dataset = map row_success (rawRows dataset).
Proof.
  intros numSamples seed h dataset.
  destruct (generateSyntheticDataset_rows numSamples seed h)
    as (_ & _ & HX & Hy).
  split; assumption.
Qed.

(** ** The logistic function and the prediction *)

Lemma sigmoid_0 : sigmoid 0 = 1 / 2.
Proof.
  unfold sigmoid. rewrite Ropp_0, exp_0. lra.
Qed.

Lemma sigmoid_increasing (a b : R) : a < b -> sigmoid a < sigmoid b.
Proof.
  intros Hab. unfold sigmoid.
  pose proof (exp_pos (- a)) as Ha. pose proof (exp_pos (- b)) as Hb.
  assert (exp (- b) < exp (- a)) as He by (apply exp_increasing; lra).
  unfold Rdiv. rewrite !Rmult_1_l.
  apply Rinv_lt_contravar; [|lra].
  apply Rmult_lt_0_compat; lra.
Qed.

(** X7. The logistic function is strictly increasing and crosses one half
    at 0: the test [prob > 0.5] that labels a sample holds exactly when
    the score is positive. *)
Theorem sigmoid_above_half :
  forall z : R,
    (0.5 < sigmoid z <-> 0 < z) /\
    (forall z', z < z' -> sigmoid z < sigmoid z').
Proof.
  intros z. split; [|intros z'; apply sigmoid_increasing].
  replace 0.5 with (sigmoid 0) by (rewrite sigmoid_0; lra).
  split.
  - intros H. destruct (Rlt_le_dec 0 z) as [Hz|Hz]; [assumption|].
    exfalso. destruct Hz as [Hz|Hz].
    + pose proof (sigmoid_increasing z 0 Hz). lra.
    + subst z. lra.
  - apply sigmoid_increasing.
Qed.

Lemma sigmoid_above_half_witness : sigmoid 0 < sigmoid 1.
Proof.
  apply (proj2 (sigmoid_above_half 0) 1). lra.
Defined.

Lemma weighted_sum_zero (n : nat) (x : list R) :
  forall (l : list nat) (z : R),
    fold_left (fun z i => z + get (repeat 0 n) i * get x i) l z = z.
Proof.
  induction l as [|i l IH]; intros z; simpl; [reflexivity|].
  rewrite IH. unfold get at 1.
  replace (nth i (repeat 0 n) 0) with 0; [lra|].
  destruct (Nat.lt_ge_cases i n).
  - now rewrite nth_repeat_lt.
  - rewrite nth_overflow; [reflexivity|]. now rewrite repeat_length.
Qed.

(** X8. The model as the constructor leaves it at the feature dimension,
    all weights and the bias zero, rates every idea with a finite or
    missing funding at exactly one half. *)
Theorem untrained_model_half :
  forall idea : Idea.t,
    predictSuccessRate (new_LogisticRegression featureDim) idea = 1 / 2.
Proof.
  intros idea. unfold predictSuccessRate, predictProba.
  cbn [weights bias new_LogisticRegression].
  rewrite weighted_sum_zero, sigmoid_0.
  apply clamp01_id. lra.
Qed.

Lemma predictProba_range (this : LogisticRegression) (x : list R) :
  0 < predictProba this x < 1.
Proof. unfold predictProba. apply sigmoid_range. Qed.

(** X9. The clamp of [predictSuccessRate] never changes the value: the
    result is the probability [predictProba] computes, for every model and
    every idea. *)
Theorem predictSuccessRate_unclamped :
  forall (model : LogisticRegression) (idea : Idea.t),
    predictSuccessRate model idea =
    predictProba model (buildFeatures (normalizeInput idea)).
Proof.
  intros model idea. unfold predictSuccessRate.
  set (x := buildFeatures (normalizeInput idea)).
  pose proof (predictProba_range model x).
  apply clamp01_id. lra.
Qed.

(** ** More on the trainer *)

Lemma length_fold_set_cell {A : Type} (f : list A -> nat -> A) (l : list nat) :
  forall w : list A,
    List.length (fold_left (fun w j => set_cell j (f w j) w) l w) =
    List.length w.
Proof.
  induction l as [|j l IH]; intros w; simpl; [reflexivity|].
  now rewrite IH, length_set_cell.
Qed.

Lemma length_train_epoch (X : list (list R)) (y : list R) (learningRate : R)
    (this : LogisticRegression) :
  List.length (weights (train_epoch X y learningRate this)) =
  List.length (weights this).
Proof.
  unfold train_epoch.
  destruct (fold_left (train_example this X y) _ _) as [gradW gradB].
  cbn [weights].
  apply (length_fold_set_cell
           (fun w j => get w j -
                       learningRate / INR (List.length X) * get gradW j)).
Qed.

Lemma length_train_epochs (X : list (list R)) (y : list R) (learningRate : R)
    (l : list nat) :
  forall this,
    List.length
      (weights (fold_left (fun this _epoch => train_epoch X y learningRate this)
                          l this)) =
    List.length (weights this).
Proof.
  induction l as [|e l IH]; intros this; simpl; [reflexivity|].
  now rewrite IH, length_train_epoch.
Qed.

(** X10. Training keeps the dimension of the model, whatever the data, the
    options and the rows' lengths. *)
Theorem train_dimension :
  forall (X : list (list R)) (y : list R) (options : TrainOptions)
         (this : LogisticRegression),
    List.length (weights (train X y options this)) =
    List.length (weights this).
Proof.
  intros X y options this. unfold train. apply length_train_epochs.
Qed.

Lemma fold_ignoring_index {A : Type} (f : A -> A) (l : list nat) :
  forall a, fold_left (fun a _ => f a) l a = Nat.iter (List.length l) f a.
Proof.
  induction l as [|i l IH]; intros a; [reflexivity|].
  cbn [fold_left List.length]. rewrite IH.
  clear IH. induction (List.length l) as [|n IHn]; [reflexivity|].
  simpl. now rewrite IHn.
Qed.

Lemma train_iter (X : list (list R)) (y : list R) (options : TrainOptions)
    (this : LogisticRegression) :
  train X y options this =
  Nat.iter (effective_epochs options)
           (train_epoch X y (effective_rate options)) this.
Proof.
  unfold train.
  rewrite (fold_ignoring_index (train_epoch X y _)), length_seq.
  reflexivity.
Qed.

(** X11. Epochs add up: training for [e1 + e2] epochs is training for
    [e1] epochs and then, from the model reached, for [e2] more with the
    same data and learning rate. *)
Theorem train_epochs_add :
  forall (X : list (list R)) (y : list R) (rate : option R) (e1 e2 : nat)
         (this : LogisticRegression),
    train X y {| learningRate := rate; epochs := Some (e1 + e2)%nat |} this =
    train X y {| learningRate := rate; epochs := Some e2 |}
          (train X y {| learningRate := rate; epochs := Some e1 |} this).
Proof.
  intros X y rate e1 e2 this. rewrite !train_iter.
  unfold effective_epochs, effective_rate. cbn [epochs learningRate].
  rewrite Nat.add_comm. apply Nat.iter_add.
Qed.

Section EpochBias.

Variables (X : list (list R)) (y : list R) (learningRate : R).

Lemma Rsum_negative (l : list R) :
  l <> [] -> Forall (fun e => e < 0) l -> Rsum l < 0.
Proof.
  intros Hne Hall. induction Hall as [|e l He Hl IH]; [congruence|].
  unfold Rsum in *. simpl.
  destruct l as [|e' l']; [simpl; lra|].
  assert (fold_right Rplus 0 (e' :: l') < 0) by (apply IH; discriminate).
  lra.
Qed.

Lemma train_epoch_bias (this : LogisticRegression) :
  bias (train_epoch X y learningRate this) =
  bias this -
  learningRate / INR (List.length X) *
  Rsum (map (fun i => predictProba this (nth i X []) - get y i)
            (seq 0 (List.length X))).
Proof.
  unfold train_epoch.
  rewrite train_examples_sum by apply repeat_length.
  cbn [bias]. now rewrite Rplus_0_l.
Qed.

Lemma train_epoch_bias_up (this : LogisticRegression) :
  X <> [] ->
  (forall i, (i < List.length X)%nat -> get y i = 1) ->
  0 < learningRate ->
  bias this < bias (train_epoch X y learningRate this).
Proof.
  intros Hne Hy Hrate. rewrite train_epoch_bias.
  assert (0 < List.length X)%nat as Hn
    by (destruct X; simpl; [congruence|lia]).
  assert (0 < INR (List.length X)) as HN by now apply lt_0_INR.
  assert (Rsum (map (fun i => predictProba this (nth i X []) - get y i)
                    (seq 0 (List.length X))) < 0) as Hneg.
  { apply Rsum_negative.
    - destruct (List.length X); [lia|discriminate].
    - apply Forall_map, Forall_forall. intros i Hi. apply in_seq in Hi.
      rewrite Hy by lia.
      pose proof (predictProba_range this (nth i X [])). lra. }
  assert (0 < learningRate / INR (List.length X)) as Hstep
    by now apply Rdiv_lt_0_compat.
  nra.
Qed.

End EpochBias.

(** X12. On a non-empty data set whose rows have the model's dimension and
    whose labels are all 1, training with a learning rate that is not
    negative never lowers the bias, for any number of epochs. *)
Theorem train_positive_labels_bias :
  forall (X : list (list R)) (y : list R) (options : TrainOptions)
         (this : LogisticRegression),
    X <> [] ->
    Forall (fun x => List.length x = List.length (weights this)) X ->
    List.length y = List.length X ->
    Forall (fun label => label = 1) y ->
    0 <= effective_rate options ->
    bias this <= bias (train X y options this).
Proof.
  intros X y options this Hne Hrows Hlen Hy Hrate. rewrite train_iter.
  assert (forall i, (i < List.length X)%nat -> get y i = 1) as Hget.
  { intros i Hi. unfold get.
    apply (proj1 (Forall_forall _ _) Hy), nth_In. lia. }
  clear Hrows Hlen Hy.
  induction (effective_epochs options) as [|n IH]; [simpl; lra|].
  rewrite Nat.iter_succ.
  eapply Rle_trans; [exact IH|].
  destruct Hrate as [Hpos|Hzero].
  - left. now apply train_epoch_bias_up.
  - rewrite train_epoch_bias, <- Hzero. right. unfold Rdiv. lra.
Qed.

Lemma train_positive_labels_bias_witness :
  bias (new_LogisticRegression 2) <=
  bias (train [[1; 0]; [0; 1]] [1; 1]
              {| learningRate := Some 0.5; epochs := Some 3%nat |}
              (new_LogisticRegression 2)).
Proof.
  apply (train_positive_labels_bias [[1; 0]; [0; 1]] [1; 1]
           {| learningRate := Some 0.5; epochs := Some 3%nat |}
           (new_LogisticRegression 2)).
  - discriminate.
  - repeat constructor.
  - reflexivity.
  - repeat constructor.
  - unfold effective_rate. cbn [learningRate]. lra.
Defined.

(** ** The explanation *)

Lemma is_one_1 : is_one 1 = true.
Proof. unfold is_one. destruct (Req_dec_T 1 1); [reflexivity|lra]. Qed.

Lemma is_one_0 : is_one 0 = false.
Proof. unfold is_one. destruct (Req_dec_T 0 1); [lra|reflexivity]. Qed.

Lemma filter_eqb_seq (k len : nat) :
  forall start,
    filter (fun i => (i =? k)%nat) (seq start len) =
    if ((start <=? k) && (k <? start + len))%nat then [k] else [].
Proof.
  induction len as [|len IH]; intros start.
  - simpl. destruct (Nat.leb_spec start k), (Nat.ltb_spec k (start + 0));
      simpl; try reflexivity; lia.
  - cbn [seq filter]. rewrite IH.
    destruct (Nat.eqb_spec start k) as [->|Hne].
    + destruct (Nat.leb_spec (S k) k); [lia|].
      destruct (Nat.leb_spec k k); [|lia].
      destruct (Nat.ltb_spec k (k + S len)); [|lia]. reflexivity.
    + destruct (Nat.leb_spec (S start) k), (Nat.leb_spec start k),
        (Nat.ltb_spec k (S start + len)), (Nat.ltb_spec k (start + S len));
        simpl; try reflexivity; lia.
Qed.

(** The loop over a one-hot block pushes the term of its active entry. *)
Lemma active_block_term (x : list R) (T : nat -> Term) (off n k : nat) :
  (k < n)%nat ->
  (forall i, (i < n)%nat -> get x (off + i) = if (i =? k)%nat then 1 else 0) ->
  forall parts,
    fold_left (fun parts i =>
                 if is_one (get x (off + i)) then parts ++ [T i] else parts)
              (seq 0 n) parts =
    parts ++ [T k].
Proof.
  intros Hk Hx parts.
  assert (forall l, (forall i, In i l -> (i < n)%nat) ->
          forall parts,
            fold_left (fun parts i =>
                         if is_one (get x (off + i)) then parts ++ [T i]
                         else parts) l parts =
            parts ++ map T (filter (fun i => (i =? k)%nat) l)) as Hgen.
  { induction l as [|i l IH]; intros Hl ps.
    - simpl. now rewrite app_nil_r.
    - cbn [fold_left filter]. rewrite (Hx i) by (apply Hl; now left).
      destruct (Nat.eqb_spec i k) as [->|Hne].
      + rewrite is_one_1, IH by (intros j Hj; apply Hl; now right).
        cbn [map]. now rewrite <- app_assoc.
      + rewrite is_one_0. apply IH. intros j Hj. apply Hl. now right. }
  rewrite Hgen by (intros i Hi; apply in_seq in Hi; lia).
  rewrite filter_eqb_seq.
  destruct (Nat.leb_spec 0 k); [|lia].
  destruct (Nat.ltb_spec k (0 + n)); [|lia]. reflexivity.
Qed.

(** The vector of an input, with the positions of its two active
    entries. *)
Lemma buildFeatures_blocks (input : FeaturesInput) :
  exists k1 k2,
    (k1 < 6)%nat /\ (k2 < 6)%nat /\
    oneHot (category input) CATEGORY_VALUES = unit_vector 6 k1 /\
    oneHot (authorLocation input) LOCATION_VALUES = unit_vector 6 k2 /\
    buildFeatures input =
    unit_vector 6 k1 ++
    [logNormalize (requiredFunding input);
     audienceFeature (targetAudience input)] ++
    unit_vector 6 k2.
Proof.
  destruct (oneHot_one_hot CATEGORY_VALUES (category input)) as [k1 [H1 E1]];
    [discriminate|].
  destruct (oneHot_one_hot LOCATION_VALUES (authorLocation input))
    as [k2 [H2 E2]]; [discriminate|].
  rewrite length_oneHot in H1, E1. rewrite length_oneHot in H2, E2.
  change (List.length CATEGORY_VALUES) with 6%nat in H1, E1.
  change (List.length LOCATION_VALUES) with 6%nat in H2, E2.
  exists k1, k2. unfold buildFeatures. rewrite <- E1, <- E2. auto.
Qed.

Lemma perFeatureContributions_terms (input : FeaturesInput) (w : list R)
    (b : R) (k1 k2 : nat) :
  (k1 < 6)%nat -> (k2 < 6)%nat ->
  buildFeatures input =
    unit_vector 6 k1 ++
    [logNormalize (requiredFunding input);
     audienceFeature (targetAudience input)] ++
    unit_vector 6 k2 ->
  perFeatureContributions (buildFeatures input) w b =
  {| contrib_bias := b;
     terms :=
       [{| feature := String.append "category:"
                                    (nth k1 CATEGORY_VALUES "undefined"%string);
           weight := get w k1; value := None |};
        {| feature := "requiredFunding(log-normalized)";
           weight := get w 6;
           value := Some (logNormalize (requiredFunding input)) |};
        {| feature := "targetAudienceLength(norm)";
           weight := get w 7;
           value := Some (audienceFeature (targetAudience input)) |};
        {| feature := String.append "authorLocation:"
                                    (nth k2 LOCATION_VALUES "undefined"%string);
           weight := get w (8 + k2); value := None |}] |}.
Proof.
  intros H1 H2 Hx. rewrite Hx.
  set (f := logNormalize (requiredFunding input)).
  set (a := audienceFeature (targetAudience input)).
  set (x := unit_vector 6 k1 ++ [f; a] ++ unit_vector 6 k2).
  assert (forall i, (i < 6)%nat ->
                    get x (0 + i) = if (i =? k1)%nat then 1 else 0) as Hc.
  { intros i Hi. unfold get, x. cbn [Nat.add].
    rewrite app_nth1 by now rewrite length_unit_vector.
    now apply nth_unit_vector. }
  assert (forall i, (i < 6)%nat ->
                    get x (8 + i) = if (i =? k2)%nat then 1 else 0) as Hl.
  { intros i Hi. unfold get, x.
    rewrite app_nth2 by (rewrite length_unit_vector; lia).
    rewrite length_unit_vector.
    replace (8 + i - 6)%nat with (2 + i)%nat by lia.
    cbn [Nat.add nth app]. now apply nth_unit_vector. }
  assert (get x 6 = f) as Hf.
  { unfold get, x. rewrite app_nth2 by (rewrite length_unit_vector; lia).
    rewrite length_unit_vector. reflexivity. }
  assert (get x 7 = a) as Ha.
  { unfold get, x. rewrite app_nth2 by (rewrite length_unit_vector; lia).
    rewrite length_unit_vector. reflexivity. }
  unfold perFeatureContributions. cbv zeta.
  change (List.length CATEGORY_VALUES) with 6%nat.
  change (List.length LOCATION_VALUES) with 6%nat.
  change (S (S (0 + 6)))%nat with 8%nat.
  change (S (0 + 6))%nat with 7%nat.
  change (0 + 6)%nat with 6%nat.
  rewrite (active_block_term x
             (fun i => {| feature := String.append "category:"
                                       (nth i CATEGORY_VALUES "undefined"%string);
                          weight := get w (0 + i); value := None |})
             0 6 k1 H1 Hc).
  rewrite (active_block_term x
             (fun i => {| feature := String.append "authorLocation:"
                                       (nth i LOCATION_VALUES "undefined"%string);
                          weight := get w (8 + i); value := None |})
             8 6 k2 H2 Hl).
  rewrite Hf, Ha. reflexivity.
Qed.

Lemma dot_blocks (w : list R) (k1 k2 : nat) (f a : R) :
  List.length w = 14%nat -> (k1 < 6)%nat -> (k2 < 6)%nat ->
  dot w (unit_vector 6 k1 ++ [f; a] ++ unit_vector 6 k2) =
  get w k1 + get w 6 * f + get w 7 * a + get w (8 + k2).
Proof.
  intros Hlen H1 H2.
  do 14 (destruct w as [|? w]; [discriminate|]).
  destruct w; [|discriminate]. clear Hlen.
  do 6 (destruct k1 as [|k1]; [
    do 6 (destruct k2 as [|k2]; [unfold dot, get; simpl; lra|]); lia |]).
  lia.
Qed.

(** X13. An explanation always has exactly four terms, in this order: the
    term of one category of the closed set, the funding term, the audience
    term, and the term of one location of the closed set; its bias is the
    model's bias. *)
Theorem explanation_four_terms :
  forall (paths : Paths) (model : LogisticRegression) (idea : Idea.t),
    let e := features (getSuccessRateExplanation paths model idea) in
    contrib_bias e = bias model /\
    exists c l,
      In c CATEGORY_VALUES /\ In l LOCATION_VALUES /\
      map feature (terms e) =
      [String.append "category:" c;
       "requiredFunding(log-normalized)";
       "targetAudienceLength(norm)";
       String.append "authorLocation:" l]%string.
Proof.
  intros paths model idea e. subst e.
  unfold getSuccessRateExplanation. cbn [features].
  destruct (buildFeatures_blocks (normalizeInput idea))
    as (k1 & k2 & H1 & H2 & _ & _ & Hx).
  rewrite (perFeatureContributions_terms _ _ _ k1 k2 H1 H2 Hx).
  cbn [contrib_bias terms map feature].
  split; [reflexivity|].
  exists (nth k1 CATEGORY_VALUES "undefined"%string),
         (nth k2 LOCATION_VALUES "undefined"%string).
  split; [apply nth_In; exact H1|].
  split; [apply nth_In; exact H2|]. reflexivity.
Qed.

(** X14. The explanation accounts for the whole score: for a model of the
    feature dimension, the reported probability is the logistic function
    of the reported bias plus the contributions of the reported terms. *)
Theorem explanation_accounts_for_score :
  forall (paths : Paths) (model : LogisticRegression) (idea : Idea.t),
    List.length (weights model) = featureDim ->
    let e := getSuccessRateExplanation paths model idea in
    probability e =
    sigmoid (contrib_bias (features e) +
             Rsum (map term_contribution (terms (features e)))).
Proof.
  intros paths model idea Hdim e. subst e.
  unfold getSuccessRateExplanation. cbn [probability features].
  destruct (buildFeatures_blocks (normalizeInput idea))
    as (k1 & k2 & H1 & H2 & _ & _ & Hx).
  rewrite (perFeatureContributions_terms _ _ _ k1 k2 H1 H2 Hx).
  cbn [contrib_bias terms].
  pose proof (predictProba_range model (buildFeatures (normalizeInput idea))).
  rewrite clamp01_id by lra.
  rewrite predictProba_dot
    by (rewrite Hdim; symmetry; apply buildFeatures_layout).
  rewrite Hx, dot_blocks by assumption.
  f_equal. unfold Rsum, term_contribution.
  cbn [map fold_right weight value]. lra.
Qed.

Lemma explanation_accounts_for_score_witness :
  let e := getSuccessRateExplanation
             {| MODEL_PATH := "m"; CSV_PATH := "c" |}
             (new_LogisticRegression featureDim) degenerate_idea in
  probability e =
  sigmoid (contrib_bias (features e) +
           Rsum (map term_contribution (terms (features e)))).
Proof.
  apply (explanation_accounts_for_score
           {| MODEL_PATH := "m"; CSV_PATH := "c" |}
           (new_LogisticRegression featureDim) degenerate_idea).
  reflexivity.
Defined.

(** ** More on the model store *)

(** The three ways a call of [loadModel] ends. *)
Lemma loadModel_outcomes (this : LogisticRegression) (d : disk) :
  loadModel this d = Return (false, this) \/
  (exists this', loadModel this d = Return (true, this')) \/
  (exists e, loadModel this d = Throw e).
Proof.
  unfold loadModel.
  destruct (modelFile d) as [[|data]|]; simpl; eauto.
  destruct (get_property data "weights") as [[[| | | |ws|]|]|]; eauto.
  destruct (get_property data "bias") as [[[| |b| | |]|]|]; eauto.
  destruct (negb _); eauto.
Qed.

(** X15. A call of [loadModel] that returns [false] leaves the model
    instance as it was. *)
Theorem loadModel_refusal_keeps_model :
  forall (this this' : LogisticRegression) (d : disk),
    loadModel this d = Return (false, this') -> this' = this.
Proof.
  intros this this' d H.
  destruct (loadModel_outcomes this d) as [E|[[m E]|[e E]]];
    rewrite E in H.
  - now inversion H.
  - discriminate.
  - discriminate.
Qed.

Lemma loadModel_refusal_keeps_model_witness :
  new_LogisticRegression 3 = new_LogisticRegression 3.
Proof.
  apply (loadModel_refusal_keeps_model
           (new_LogisticRegression 3) (new_LogisticRegression 3)
           {| mlDir := false; modelFile := None |}).
  reflexivity.
Defined.

(** X16. [loadModel] returns [true] exactly when the file exists and
    denotes an object whose [weights] is an array with as many elements as
    the instance has weights and whose [bias] is a number. *)
Theorem loadModel_accepts_iff :
  forall (this : LogisticRegression) (d : disk),
    (exists this', loadModel this d = Return (true, this')) <->
    (exists fields ws b,
        modelFile d = Some (Denotes (JObj fields)) /\
        lookup "weights" fields = Some (JArr ws) /\
        lookup "bias" fields = Some (JNum b) /\
        List.length ws = List.length (weights this)).
Proof.
  intros this d. unfold loadModel. split.
  - intros [this' H].
    destruct (modelFile d) as [[|data]|]; simpl in H; try discriminate.
    destruct data as [| | | | |fields]; simpl in H; try discriminate.
    destruct (lookup "weights" fields) as [[| | | |ws|]|] eqn:Hw;
      try discriminate.
    destruct (lookup "bias" fields) as [[| |b| | |]|] eqn:Hb;
      try discriminate.
    destruct (Nat.eqb_spec (List.length ws) (List.length (weights this)));
      simpl in H; [|discriminate].
    exists fields, ws, b. auto.
  - intros (fields & ws & b & Hfile & Hw & Hb & Hlen).
    rewrite Hfile. simpl. rewrite Hw, Hb, Hlen, Nat.eqb_refl. simpl.
    eexists. reflexivity.
Qed.

Lemma loadModel_accepts_iff_witness :
  exists this',
    loadModel (new_LogisticRegression 2)
      {| mlDir := true;
         modelFile :=
           Some (Denotes (JObj [("weights", JArr [JNum 1; JNum 2]);
                                ("bias", JNum 3)]%string)) |}
    = Return (true, this').
Proof.
  apply (proj2 (loadModel_accepts_iff (new_LogisticRegression 2) _)).
  exists [("weights", JArr [JNum 1; JNum 2]); ("bias", JNum 3)]%string,
         [JNum 1; JNum 2], 3.
  repeat split.
Defined.

(** X17. What [loadModel] does with a model file that is absent or was
    read: it returns [false] without a file, throws a [SyntaxError] on a
    text that is not JSON and a [TypeError] on the text [null], and on
    every other JSON text it returns, with [true] or [false]. *)
Theorem loadModel_by_content :
  forall (this : LogisticRegression) (d : disk),
    (modelFile d = None -> loadModel this d = Return (false, this)) /\
    (modelFile d = Some NotJson -> loadModel this d = Throw SyntaxError) /\
    (modelFile d = Some (Denotes JNull) -> loadModel this d = Throw TypeError) /\
    (forall data,
        modelFile d = Some (Denotes data) -> data <> JNull ->
        exists loaded this', loadModel this d = Return (loaded, this')).
Proof.
  intros this d. unfold loadModel.
  split; [|split; [|split]].
  - intros ->. reflexivity.
  - intros ->. reflexivity.
  - intros ->. reflexivity.
  - intros data -> Hdata. cbn [JSON_parse].
    destruct data as [| | | | |fields]; cbn [get_property]; eauto.
    + congruence.
    + destruct (lookup "weights" fields) as [[| | | |ws|]|]; eauto.
      destruct (lookup "bias" fields) as [[| |b| | |]|]; eauto.
      destruct (negb _); eauto.
Qed.

Lemma loadModel_by_content_witness :
  loadModel (new_LogisticRegression 2)
            {| mlDir := true; modelFile := Some (Denotes JNull) |}
  = Throw TypeError /\
  exists loaded this',
    loadModel (new_LogisticRegression 2)
              {| mlDir := true; modelFile := Some (Denotes (JNum 7)) |}
    = Return (loaded, this').
Proof.
  destruct (loadModel_by_content (new_LogisticRegression 2)
              {| mlDir := true; modelFile := Some (Denotes JNull) |})
    as (_ & _ & Hnull & _).
  destruct (loadModel_by_content (new_LogisticRegression 2)
              {| mlDir := true; modelFile := Some (Denotes (JNum 7)) |})
    as (_ & _ & _ & Hother).
  split.
  - apply Hnull. reflexivity.
  - apply (Hother (JNum 7)); [reflexivity|discriminate].
Defined.

(** Loading from any disk whose model file is the one [saveModel] writes
    for [saved]. *)
Lemma loadModel_saved_file (saved this : LogisticRegression) (d d0 : disk) :
  modelFile d = modelFile (saveModel saved d0) ->
  loadModel this d =
  if (List.length (weights saved) =? List.length (weights this))%nat
  then Return (true, saved) else Return (false, this).
Proof.
  intros Hfile. unfold loadModel. rewrite Hfile.
  destruct saved as [ws b]. unfold saveModel. simpl.
  rewrite length_map.
  destruct (List.length ws =? List.length (weights this))%nat; simpl;
    [|reflexivity].
  now rewrite map_ToNumber_JNum.
Qed.

(** X18. The last save wins: after two saves, loading into an instance of
    the second model's dimension returns the second model. *)
Theorem last_save_wins :
  forall (m1 m2 this : LogisticRegression) (d : disk),
    List.length (weights this) = List.length (weights m2) ->
    loadModel this (saveModel m2 (saveModel m1 d)) = Return (true, m2).
Proof.
  intros m1 m2 this d Hlen.
  rewrite (loadModel_saved_file m2 this _ (saveModel m1 d) eq_refl).
  now rewrite Hlen, Nat.eqb_refl.
Qed.

Lemma last_save_wins_witness :
  loadModel (new_LogisticRegression 1)
            (saveModel {| weights := [2]; bias := 3 |}
               (saveModel {| weights := [5; 6]; bias := 7 |}
                          {| mlDir := false; modelFile := None |}))
  = Return (true, {| weights := [2]; bias := 3 |}).
Proof.
  apply (last_save_wins {| weights := [5; 6]; bias := 7 |}
                        {| weights := [2]; bias := 3 |}
                        (new_LogisticRegression 1)).
  reflexivity.
Defined.

(** X19. A model saved under another dimension is refused: loading it
    returns [false] and the instance keeps its own parameters. *)
Theorem load_other_dimension_refused :
  forall (saved this : LogisticRegression) (d : disk),
    List.length (weights saved) <> List.length (weights this) ->
    loadModel this (saveModel saved d) = Return (false, this).
Proof.
  intros saved this d Hlen.
  rewrite (loadModel_saved_file saved this _ d eq_refl).
  destruct (Nat.eqb_spec (List.length (weights saved))
                         (List.length (weights this)));
    [contradiction|reflexivity].
Qed.

Lemma load_other_dimension_refused_witness :
  loadModel (new_LogisticRegression 12)
            (saveModel (new_LogisticRegression 5)
                       {| mlDir := true; modelFile := None |})
  = Return (false, new_LogisticRegression 12).
Proof.
  apply (load_other_dimension_refused (new_LogisticRegression 5)
                                      (new_LogisticRegression 12)).
  simpl. lia.
Defined.

(** ** The start-up *)

Lemma modelFile_ensureMlDir (d : disk) :
  modelFile (ensureMlDir d) = modelFile d.
Proof. unfold ensureMlDir. now destruct (mlDir d). Qed.

Lemma mlDir_ensureMlDir (d : disk) : mlDir (ensureMlDir d) = true.
Proof. unfold ensureMlDir. now destruct (mlDir d) eqn:E. Qed.

Section StartUp.

Variable Number_toString : R -> string.

(** The two ways [initModel] returns: with the stored model and nothing
    touched, or with a trained model and both files written. *)
Lemma initModel_cases (files files' : ml_files) (h h' : heap)
    (model : LogisticRegression) :
  initModel Number_toString files h = Return (model, files', h') ->
  (loadModel (new_LogisticRegression featureDim) (model_disk files)
     = Return (true, model) /\
   files' = files /\ h' = h) \/
  (loadModel (new_LogisticRegression featureDim) (model_disk files)
     = Return (false, new_LogisticRegression featureDim) /\
   (let dataset := fst (generateSyntheticDataset (Some 1500%nat) (Some 123%Z) h) in
    model = train (X dataset) (y dataset)
                  {| learningRate := Some 0.5; epochs := Some 500%nat |}
                  (new_LogisticRegression featureDim) /\
    files' = saveCsv Number_toString (rawRows dataset)
               {| model_disk := saveModel model (model_disk files);
                  csvFile := csvFile files |}) /\
   h' = snd (generateSyntheticDataset (Some 1500%nat) (Some 123%Z) h)).
Proof.
  unfold initModel.
  destruct (loadModel (new_LogisticRegression featureDim) (model_disk files))
    as [[[|] m0]|e] eqn:E.
  - intros H. inversion H; subst. left. auto.
  - assert (m0 = new_LogisticRegression featureDim) as ->.
    { destruct (loadModel_outcomes (new_LogisticRegression featureDim)
                                   (model_disk files)) as [E'|[[m E']|[e E']]];
        rewrite E' in E; [now inversion E|discriminate|discriminate]. }
    destruct (generateSyntheticDataset (Some 1500%nat) (Some 123%Z) h)
      as [dataset h1].
    intros H. inversion H; subst. right. cbn [fst snd]. auto.
  - discriminate.
Qed.

End StartUp.

(** X20. Whenever [initModel] returns, the module's model has the feature
    dimension, whether it was loaded or trained. *)
Theorem initModel_dimension :
  forall (Number_toString : R -> string) (files files' : ml_files)
         (h h' : heap) (model : LogisticRegression),
    initModel Number_toString files h = Return (model, files', h') ->
    List.length (weights model) = featureDim.
Proof.
  intros N files files' h h' model H.
  destruct (initModel_cases N _ _ _ _ _ H)
    as [(Hload & _ & _)|(_ & (Hm & _) & _)].
  - apply loadModel_dimension in Hload. rewrite Hload.
    apply repeat_length.
  - rewrite Hm. unfold train. rewrite length_train_epochs.
    apply repeat_length.
Qed.

Lemma initModel_stored :
  initModel (fun _ => EmptyString) stored_files [] =
  Return ({| weights := repeat 0.25 featureDim; bias := 1 |}, stored_files, []).
Proof. reflexivity. Qed.

Lemma initModel_dimension_witness :
  List.length (weights {| weights := repeat 0.25 featureDim; bias := 1 |})
  = featureDim.
Proof.
  apply (initModel_dimension (fun _ => EmptyString) stored_files stored_files
           [] []).
  exact initModel_stored.
Defined.

(** X21. Starting again is stable: in the files a successful [initModel]
    leaves, a later [initModel] (a restart of the process) loads the very
    same model, writes nothing and creates no generator. *)
Theorem initModel_restart :
  forall (Number_toString : R -> string) (files files' : ml_files)
         (h h' h2 : heap) (model : LogisticRegression),
    initModel Number_toString files h = Return (model, files', h') ->
    initModel Number_toString files' h2 = Return (model, files', h2).
Proof.
  intros N files files' h h' h2 model H.
  destruct (initModel_cases N _ _ _ _ _ H)
    as [(Hload & -> & _)|(_ & (Hm & Hf) & _)].
  - unfold initModel. now rewrite Hload.
  - assert (List.length (weights model) = featureDim) as Hdim.
    { rewrite Hm. unfold train. rewrite length_train_epochs.
      apply repeat_length. }
    unfold initModel.
    rewrite (loadModel_saved_file model _ _ (model_disk files)).
    + cbn [weights new_LogisticRegression]. rewrite repeat_length, Hdim.
      now rewrite Nat.eqb_refl.
    + rewrite Hf. unfold saveCsv. cbn [model_disk].
      apply modelFile_ensureMlDir.
Qed.

Lemma initModel_restart_witness :
  initModel (fun _ => EmptyString) stored_files [7%Z] =
  Return ({| weights := repeat 0.25 featureDim; bias := 1 |},
          stored_files, [7%Z]).
Proof.
  apply (initModel_restart (fun _ => EmptyString) stored_files stored_files
           [] [] [7%Z]).
  exact initModel_stored.
Defined.

(** X22. What a successful [initModel] does to its surroundings.  With a
    stored model that [loadModel] accepts, nothing is written and no
    generator is created.  Otherwise the directory exists afterwards, the
    model file is the one [saveModel] writes for the trained model, the
    export is written, and the heap has grown by the one generator of the
    data set. *)
Theorem initModel_effects :
  forall (Number_toString : R -> string) (files files' : ml_files)
         (h h' : heap) (model : LogisticRegression),
    initModel Number_toString files h = Return (model, files', h') ->
    ((exists this', loadModel (new_LogisticRegression featureDim)
                              (model_disk files) = Return (true, this')) ->
     files' = files /\ h' = h) /\
    ((forall this', loadModel (new_LogisticRegression featureDim)
                              (model_disk files) <> Return (true, this')) ->
     mlDir (model_disk files') = true /\
     modelFile (model_disk files') =
       modelFile (saveModel model (model_disk files)) /\
     (exists text, csvFile files' = Some text) /\
     exists a, h' = h ++ [a]).
Proof.
  intros N files files' h h' model H.
  destruct (initModel_cases N _ _ _ _ _ H)
    as [(Hload & -> & ->)|(Hload & (_ & Hf) & Hh)].
  - split; [auto|]. intros Hno. now destruct (Hno model).
  - split.
    + intros [this' Hyes]. congruence.
    + intros _. rewrite Hf. unfold saveCsv. cbn [model_disk csvFile].
      split; [apply mlDir_ensureMlDir|].
      split; [apply modelFile_ensureMlDir|].
      split; [eexists; reflexivity|].
      rewrite Hh. unfold generateSyntheticDataset, bind, mulberry32.
      apply generate_loop_fresh.
Qed.

Lemma initModel_effects_witness :
  stored_files = stored_files /\ @nil Z = [].
Proof.
  apply (initModel_effects (fun _ => EmptyString) stored_files stored_files
           [] [] _ initModel_stored).
  eexists. reflexivity.
Defined.

(** X23. [initModel] throws exactly when its call of [loadModel] throws,
    and then the same exception (write failures of the file system are
    not modelled). *)
Theorem initModel_throws_iff :
  forall (Number_toString : R -> string) (files : ml_files) (h : heap)
         (e : error),
    initModel Number_toString files h = Throw e <->
    loadModel (new_LogisticRegression featureDim) (model_disk files) = Throw e.
Proof.
  intros N files h e.
  unfold initModel.
  destruct (loadModel (new_LogisticRegression featureDim) (model_disk files))
    as [[[|] m0]|e0].
  - split; discriminate.
  - destruct (generateSyntheticDataset (Some 1500%nat) (Some 123%Z) h).
    split; discriminate.
  - split; intros H; inversion H; reflexivity.
Qed.

Lemma initModel_throws_iff_witness :
  initModel (fun _ => EmptyString)
            {| model_disk := {| mlDir := true; modelFile := Some NotJson |};
               csvFile := None |} []
  = Throw SyntaxError.
Proof.
  apply (proj2 (initModel_throws_iff (fun _ => EmptyString)
                  {| model_disk := {| mlDir := true; modelFile := Some NotJson |};
                     csvFile := None |} [] SyntaxError)).
  reflexivity.
Defined.

(** ** The audience cell of the export *)

Lemma count_quotes_append (a b : string) :
  count_quotes (a ++ b) = (count_quotes a + count_quotes b)%nat.
Proof.
  induction a as [|c a IH]; simpl; [reflexivity|]. rewrite IH. lia.
Qed.

Lemma count_quotes_double (s : string) :
  count_quotes (double_quotes s) = (2 * count_quotes s)%nat.
Proof.
  induction s as [|c s IH]; [reflexivity|].
  cbn [double_quotes count_quotes].
  destruct (Ascii.eqb c quote_unit) eqn:E.
  - cbn [count_quotes]. rewrite Ascii.eqb_refl, IH. lia.
  - cbn [count_quotes]. rewrite E, IH. lia.
Qed.

(** X24. The audience cell [saveCsv] writes always holds an even number of
    double quotes, whatever the audience text. *)
Theorem export_cell_quotes_even :
  forall targetAudience : string,
    Nat.even (count_quotes (maybeQuoted (safeAudience targetAudience))) = true.
Proof.
  intros s. unfold maybeQuoted, safeAudience.
  destruct (includes_comma (double_quotes s)).
  - cbn [count_quotes]. rewrite Ascii.eqb_refl, count_quotes_append.
    cbn [count_quotes]. rewrite Ascii.eqb_refl, count_quotes_double.
    replace (1 + (2 * count_quotes s + (1 + 0)))%nat
      with (2 * (1 + count_quotes s))%nat by lia.
    apply Nat.even_spec. now exists (1 + count_quotes s)%nat.
  - rewrite count_quotes_double. apply Nat.even_spec.
    now exists (count_quotes s).
Qed.

Lemma includes_comma_double (s : string) :
  includes_comma (double_quotes s) = includes_comma s.
Proof.
  induction s as [|c s IH]; [reflexivity|].
  cbn [double_quotes includes_comma].
  destruct (Ascii.eqb_spec c quote_unit) as [->|_].
  - cbn [includes_comma]. now rewrite IH.
  - cbn [includes_comma]. now rewrite IH.
Qed.

Lemma double_quotes_injective (a : string) :
  forall b, double_quotes a = double_quotes b -> a = b.
Proof.
  induction a as [|c a IH]; intros [|c' b] H; cbn [double_quotes] in H.
  - reflexivity.
  - destruct (Ascii.eqb c' quote_unit); discriminate.
  - destruct (Ascii.eqb c quote_unit); discriminate.
  - destruct (Ascii.eqb_spec c quote_unit) as [->|Hc],
             (Ascii.eqb_spec c' quote_unit) as [->|Hc'].
    + inversion H as [H']. f_equal. now apply IH.
    + inversion H as [[Hq H']]. congruence.
    + inversion H as [[Hq H']]. congruence.
    + inversion H as [[Hq H']]. subst. f_equal. now apply IH.
Qed.

Lemma includes_comma_append (a b : string) :
  includes_comma (a ++ b) = includes_comma a || includes_comma b.
Proof.
  induction a as [|c a IH]; [reflexivity|].
  cbn [String.append includes_comma]. rewrite IH. apply orb_assoc.
Qed.

Lemma string_length_append (a b : string) :
  String.length (a ++ b) = (String.length a + String.length b)%nat.
Proof.
  induction a as [|c a IH]; simpl; [reflexivity|now rewrite IH].
Qed.

Lemma app_inv_tail_string (t a : string) :
  forall b, (a ++ t = b ++ t -> a = b)%string.
Proof.
  induction a as [|c a IH]; intros [|c' b] H; simpl in H.
  - reflexivity.
  - apply (f_equal String.length) in H. simpl in H.
    rewrite string_length_append in H. lia.
  - apply (f_equal String.length) in H. simpl in H.
    rewrite string_length_append in H. lia.
  - inversion H as [[Hc H']]. f_equal. now apply IH.
Qed.

(** X25. The audience cell determines the audience text: two texts with
    the same cell are equal. *)
Theorem export_cell_injective :
  forall a b : string,
    maybeQuoted (safeAudience a) = maybeQuoted (safeAudience b) -> a = b.
Proof.
  intros a b. unfold maybeQuoted, safeAudience.
  rewrite !includes_comma_double.
  destruct (includes_comma a) eqn:Ea, (includes_comma b) eqn:Eb; intros H.
  - inversion H as [H']. apply app_inv_tail_string in H'.
    now apply double_quotes_injective.
  - exfalso.
    assert (includes_comma (String quote_unit
              (double_quotes a ++ String quote_unit EmptyString)) = false)
      as Hc by (rewrite H, includes_comma_double; exact Eb).
    revert Hc. cbn [includes_comma].
    rewrite includes_comma_append, includes_comma_double, Ea.
    discriminate.
  - exfalso.
    assert (includes_comma (String quote_unit
              (double_quotes b ++ String quote_unit EmptyString)) = false)
      as Hc by (rewrite <- H, includes_comma_double; exact Ea).
    revert Hc. cbn [includes_comma].
    rewrite includes_comma_append, includes_comma_double, Eb.
    discriminate.
  - now apply double_quotes_injective.
Qed.

Lemma export_cell_injective_witness : "a, b"%string = "a, b"%string.
Proof.
  apply (export_cell_injective "a, b" "a, b"). reflexivity.
Defined.

Lemma plain_verbatim (s : string) :
  plain s = true -> maybeQuoted (safeAudience s) = s.
Proof.
  intros Hp. unfold maybeQuoted, safeAudience.
  assert (double_quotes s = s /\ includes_comma s = false) as [Hd Hc].
  { induction s as [|c s IH]; [split; reflexivity|].
    cbn [plain] in Hp.
    apply andb_prop in Hp as [Hp Hs]. apply andb_prop in Hp as [Hq Hcomma].
    destruct (IH Hs) as [Hd Hc].
    cbn [double_quotes includes_comma].
    destruct (Ascii.eqb c quote_unit); [discriminate|].
    destruct (Ascii.eqb c ","%char); [discriminate|].
    rewrite Hd, Hc. split; reflexivity. }
  now rewrite Hd, Hc.
Qed.

(** X26. No row of a generated data set needs escaping: the audience cell
    [saveCsv] writes for it is the audience text itself. *)
Theorem generated_rows_written_verbatim :
  forall (numSamples : option nat) (seed : option Z) (h : heap),
    Forall (fun r => maybeQuoted (safeAudience (row_targetAudience r)) =
                     row_targetAudience r)
           (rawRows (fst (generateSyntheticDataset numSamples seed h))).
Proof.
  intros numSamples seed h.
  destruct (generateSyntheticDataset_rows numSamples seed h)
    as (_ & Hrows & _).
  eapply Forall_impl; [|exact Hrows].
  intros r (_ & _ & _ & Hp & _). now apply plain_verbatim.
Qed.

(** ** Locations and funding at the edges *)

(** X27. How the location of an idea reaches the prediction.  When
    [authorLocation] is a non-empty string, the field [location] has no
    influence; and a non-empty [authorLocation] that matches no entry of
    the closed set is rated like an idea without any location. *)
Theorem location_resolution :
  forall (model : LogisticRegression) (c : option string) (f : option R)
         (t : option string) (a : string) (l l' : option string),
    a <> EmptyString ->
    predictSuccessRate model
      {| Idea.category := c; Idea.requiredFunding := f;
         Idea.targetAudience := t; Idea.authorLocation := Some a;
         Idea.location := l |} =
    predictSuccessRate model
      {| Idea.category := c; Idea.requiredFunding := f;
         Idea.targetAudience := t; Idea.authorLocation := Some a;
         Idea.location := l' |} /\
    (~ In (toLowerCase a) LOCATION_VALUES ->
     predictSuccessRate model
       {| Idea.category := c; Idea.requiredFunding := f;
          Idea.targetAudience := t; Idea.authorLocation := Some a;
          Idea.location := l |} =
     predictSuccessRate model
       {| Idea.category := c; Idea.requiredFunding := f;
          Idea.targetAudience := t; Idea.authorLocation := None;
          Idea.location := None |}).
Proof.
  intros model c f t a l l' Ha.
  destruct a as [|ch a]; [congruence|]. split.
  - reflexivity.
  - intros Hout. unfold predictSuccessRate. do 2 f_equal.
    unfold buildFeatures, normalizeInput.
    cbn [category requiredFunding targetAudience authorLocation
         Idea.category Idea.requiredFunding Idea.targetAudience
         Idea.authorLocation Idea.location or_else].
    do 2 f_equal.
    rewrite (oneHot_no_match LOCATION_VALUES (Some (String ch a)))
      by (assumption || discriminate).
    symmetry.
    apply (oneHot_match _ LOCATION_VALUES_distinct _ 5); [simpl; lia|].
    reflexivity.
Qed.

Lemma location_resolution_witness :
  predictSuccessRate (new_LogisticRegression featureDim)
    {| Idea.category := None; Idea.requiredFunding := None;
       Idea.targetAudience := None; Idea.authorLocation := Some "Mars"%string;
       Idea.location := Some "urban"%string |} =
  predictSuccessRate (new_LogisticRegression featureDim)
    {| Idea.category := None; Idea.requiredFunding := None;
       Idea.targetAudience := None; Idea.authorLocation := None;
       Idea.location := None |}.
Proof.
  apply (location_resolution (new_LogisticRegression featureDim) None None None
           "Mars" (Some "urban"%string) None).
  - discriminate.
  - simpl. intuition discriminate.
Defined.

(** X28. Funding at the edges: a missing or non-numeric amount, zero and
    every negative amount give the feature 0, and one million gives 1. *)
Theorem funding_edge_cases :
  logNormalize None = 0 /\
  (forall r, r <= 0 -> logNormalize (Some r) = 0) /\
  logNormalize (Some 1000000) = 1.
Proof.
  split; [|split].
  - exact logNormalize_zero.
  - intros r Hr. unfold logNormalize, Number_or_0.
    rewrite Rmax_left, Rplus_0_r, ln_1 by lra.
    unfold Rdiv. apply Rmult_0_l.
  - exact logNormalize_at_cap.
Qed.

Lemma funding_edge_cases_witness : logNormalize (Some (-5)) = 0.
Proof.
  apply (proj1 (proj2 funding_edge_cases)). lra.
Defined.

(** ** The factors of the explanation route *)

(** X29. For a model of the feature dimension and every idea, the route
    turns the explanation into exactly four factors, none through its
    catch-all branch: the category sentence names the category of the
    closed set that the category term carries, the location sentence names
    the location of the location term, each with the impact [positive] for
    a weight that is not negative and [negative] otherwise, and the
    funding and audience sentences carry a percentage. *)
Theorem route_factors :
  forall (Number_toString : R -> string) (paths : Paths)
         (model : LogisticRegression) (idea : Idea.t),
    List.length (weights model) = featureDim ->
    exists c l tc tf ta tl pf pa,
      In c CATEGORY_VALUES /\ In l LOCATION_VALUES /\
      terms (features (getSuccessRateExplanation paths model idea)) =
        [tc; tf; ta; tl] /\
      feature tc = String.append "category:" c /\
      feature tl = String.append "authorLocation:" l /\
      explanation_factors Number_toString
        (getSuccessRateExplanation paths model idea) =
      [{| factor := feature tc; impact := term_impact tc;
          explanation :=
            ("Projects in " ++ c ++ " category influence the success rate (" ++
             term_impact tc ++ ").")%string |};
       {| factor := "requiredFunding(log-normalized)";
          impact := term_impact tf;
          explanation :=
            ("Higher funding requirement reduces success likelihood by ~" ++
             pf ++ "% (relative).")%string |};
       {| factor := "targetAudienceLength(norm)";
          impact := term_impact ta;
          explanation :=
            ("A clearer target audience description improves success likelihood by ~" ++
             pa ++ "% (relative).")%string |};
       {| factor := feature tl; impact := term_impact tl;
          explanation :=
            ("Founder location " ++ l ++ " affects feasibility (" ++
             term_impact tl ++ ").")%string |}].
Proof.
  intros N paths model idea _.
  unfold explanation_factors, getSuccessRateExplanation. cbn [features].
  destruct (buildFeatures_blocks (normalizeInput idea))
    as (k1 & k2 & H1 & H2 & _ & _ & Hx).
  rewrite (perFeatureContributions_terms _ _ _ k1 k2 H1 H2 Hx).
  cbn [terms fold_left app].
  exists (nth k1 CATEGORY_VALUES "undefined"%string),
         (nth k2 LOCATION_VALUES "undefined"%string).
  do 4 eexists.
  exists (pct_text N (Some (get (weights model) 6))),
         (pct_text N (Some (get (weights model) 7))).
  split; [apply nth_In; exact H1|].
  split; [apply nth_In; exact H2|].
  split; [reflexivity|].
  split; [reflexivity|].
  split; [reflexivity|].
  do 6 (destruct k1 as [|k1]; [
    do 6 (destruct k2 as [|k2]; [reflexivity|]); lia |]).
  lia.
Qed.

Lemma route_factors_witness :
  exists factors,
    explanation_factors (fun _ => EmptyString)
      (getSuccessRateExplanation {| MODEL_PATH := "m"; CSV_PATH := "c" |}
         (new_LogisticRegression featureDim) degenerate_idea) = factors /\
    List.length factors = 4%nat /\
    map impact factors = ["positive"; "positive"; "positive"; "positive"]%string.
Proof.
  destruct (route_factors (fun _ => EmptyString)
              {| MODEL_PATH := "m"; CSV_PATH := "c" |}
              (new_LogisticRegression featureDim) degenerate_idea eq_refl)
    as (c & l & tc & tf & ta & tl & pf & pa & _ & _ & Ht & _ & _ & Hf).
  eexists. split; [exact Hf|]. split; [reflexivity|].
  cbn [map impact].
  unfold getSuccessRateExplanation in Ht. cbn [features] in Ht.
  destruct (buildFeatures_blocks (normalizeInput degenerate_idea))
    as (k1 & k2 & H1 & H2 & _ & _ & Hx).
  rewrite (perFeatureContributions_terms _ _ _ k1 k2 H1 H2 Hx) in Ht.
  cbn [terms] in Ht. inversion Ht. unfold term_impact. cbn [weight].
  assert (forall k, get (weights (new_LogisticRegression featureDim)) k = 0)
    as Hz.
  { intros k. unfold get. cbn [weights new_LogisticRegression].
    destruct (Nat.lt_ge_cases k featureDim).
    - now rewrite nth_repeat_lt.
    - rewrite nth_overflow; [reflexivity|]. now rewrite repeat_length. }
  rewrite !Hz. destruct (Rle_dec 0 0); [reflexivity|lra].
Defined.

(** ** The prediction at numbers that are not finite *)

Lemma add_NaN_r (z : Ext.number) : Ext.add z Ext.NaN = Ext.NaN.
Proof. destruct z; reflexivity. Qed.

(** Once a term of the weighted sum is NaN, the sum is NaN. *)
Lemma weighted_sum_NaN (t : nat -> Ext.number) (k : nat) (l : list nat) :
  forall z,
    (z = Ext.NaN \/ (In k l /\ t k = Ext.NaN)) ->
    fold_left (fun z i => Ext.add z (t i)) l z = Ext.NaN.
Proof.
  induction l as [|i l IH]; intros z H; cbn [fold_left].
  - destruct H as [H|[[] _]]. exact H.
  - apply IH. destruct H as [->|[[->|Hin] Hk]].
    + now left.
    + left. rewrite Hk. apply add_NaN_r.
    + right. now split.
Qed.

Lemma predictProba_NaN (this : Ext.LogisticRegression) (x : list Ext.number)
    (k : nat) :
  (k < List.length (Ext.weights this))%nat ->
  Ext.mul (Ext.get (Ext.weights this) k) (Ext.get x k) = Ext.NaN ->
  Ext.predictProba this x = Ext.NaN.
Proof.
  intros Hk Hterm. unfold Ext.predictProba.
  rewrite (weighted_sum_NaN
             (fun i => Ext.mul (Ext.get (Ext.weights this) i) (Ext.get x i)) k).
  - reflexivity.
  - right. split; [|exact Hterm]. apply in_seq. lia.
Qed.

Lemma Math_log_scale :
  Ext.Math_log (Ext.add (Ext.Fin 1) (Ext.Fin 1000000)) =
  Ext.Fin (ln (1 + 1000000)).
Proof.
  cbn [Ext.add Ext.Math_log].
  destruct (Rlt_dec 0 (1 + 1000000)); [reflexivity|lra].
Qed.

(** An infinite amount gives an infinite funding feature. *)
Lemma logNormalize_infinite : Ext.logNormalize Ext.PosInf = Ext.PosInf.
Proof.
  unfold Ext.logNormalize. rewrite Math_log_scale.
  cbn [Ext.or_0 Ext.Math_max Ext.add Ext.Math_log Ext.div].
  pose proof ln_scale_pos.
  destruct (Rlt_dec (ln (1 + 1000000)) 0); [lra|reflexivity].
Qed.

Lemma zero_times_infinity : Ext.mul (Ext.Fin 0) Ext.PosInf = Ext.NaN.
Proof.
  cbn [Ext.mul]. unfold Ext.infinity_times.
  destruct (Rlt_dec 0 0); [lra|reflexivity].
Qed.

(** Whatever the rest of the model and of the idea, a funding weight 0 and
    an infinite funding make the prediction NaN. *)
Lemma zero_weight_infinite_funding (model : Ext.LogisticRegression)
    (idea : Ext.Idea.t) :
  (6 < List.length (Ext.weights model))%nat ->
  Ext.get (Ext.weights model) 6 = Ext.Fin 0 ->
  Ext.Idea.requiredFunding idea = Ext.PosInf ->
  Ext.predictSuccessRate model idea = Ext.NaN.
Proof.
  intros Hlen Hw Hf. unfold Ext.predictSuccessRate.
  rewrite (predictProba_NaN model _ 6 Hlen); [reflexivity|].
  rewrite Hw. unfold Ext.buildFeatures, Ext.get.
  rewrite app_nth2 by (rewrite length_map, length_oneHot; simpl; lia).
  rewrite length_map, length_oneHot.
  cbn [List.length CATEGORY_VALUES Nat.sub nth app
       Ext.normalizeInput Ext.requiredFunding].
  rewrite Hf, logNormalize_infinite. apply zero_times_infinity.
Qed.

(** C1. With the model that a file of fourteen zero weights loads as, the
    idea whose [requiredFunding] is [Infinity] is rated NaN: the funding
    feature is infinite, zero times infinity is NaN, and neither the
    logistic function nor the clamp turns NaN into a number of [0,1]. *)
Theorem predictSuccessRate_NaN :
  Ext.predictSuccessRate zero_model infinite_funding_idea = Ext.NaN.
Proof.
  apply zero_weight_infinite_funding.
  - unfold zero_model, finite_model. cbn [Ext.weights].
    rewrite length_map. cbn [new_LogisticRegression weights].
    rewrite repeat_length. unfold featureDim. simpl. lia.
  - reflexivity.
  - reflexivity.
Qed.

(** On finite numbers the extended operations are the real ones. *)

Lemma logNormalize_finite (x : option R) :
  Ext.logNormalize (match x with Some r => Ext.Fin r | None => Ext.NaN end) =
  Ext.Fin (logNormalize x).
Proof.
  unfold Ext.logNormalize, logNormalize. rewrite Math_log_scale.
  pose proof ln_scale_pos as Hs.
  pose proof (Rmax_l 0 (Number_or_0 x)) as Hm.
  assert (Ext.Math_max (Ext.Fin 0)
            (Ext.or_0 (match x with Some r => Ext.Fin r | None => Ext.NaN end))
          = Ext.Fin (Rmax 0 (Number_or_0 x))) as ->
    by (destruct x; reflexivity).
  cbn [Ext.add Ext.Math_log].
  destruct (Rlt_dec 0 (1 + Rmax 0 (Number_or_0 x))); [|lra].
  cbn [Ext.div].
  destruct (Req_dec_T (ln (1 + 1000000)) 0); [lra|reflexivity].
Qed.

Lemma audience_finite (audience : option string) :
  Ext.Math_min (Ext.Fin 1)
    (Ext.div (Ext.Fin (INR (String.length (or_empty audience)))) (Ext.Fin 200))
  = Ext.Fin (audienceFeature audience).
Proof.
  cbn [Ext.div]. destruct (Req_dec_T 200 0); [lra|]. reflexivity.
Qed.

Lemma buildFeatures_finite (idea : Idea.t) :
  Ext.buildFeatures (Ext.normalizeInput (finite_idea idea)) =
  map Ext.Fin (buildFeatures (normalizeInput idea)).
Proof.
  unfold Ext.buildFeatures, buildFeatures.
  cbn [Ext.normalizeInput Ext.category Ext.requiredFunding
       Ext.targetAudience Ext.authorLocation finite_idea
       Ext.Idea.category Ext.Idea.requiredFunding Ext.Idea.targetAudience
       Ext.Idea.authorLocation Ext.Idea.location
       normalizeInput category requiredFunding targetAudience authorLocation].
  rewrite logNormalize_finite, audience_finite.
  now rewrite !map_app.
Qed.

Lemma get_finite (x : list R) (i : nat) :
  (i < List.length x)%nat -> Ext.get (map Ext.Fin x) i = Ext.Fin (get x i).
Proof.
  intros Hi. unfold Ext.get, get.
  rewrite (nth_indep _ Ext.NaN (Ext.Fin 0)) by now rewrite length_map.
  apply map_nth.
Qed.

Lemma weighted_sum_finite (w x : list R) (l : list nat) :
  (forall i, In i l -> (i < List.length w)%nat /\ (i < List.length x)%nat) ->
  forall z,
    fold_left (fun z i =>
                 Ext.add z (Ext.mul (Ext.get (map Ext.Fin w) i)
                                    (Ext.get (map Ext.Fin x) i)))
              l (Ext.Fin z) =
    Ext.Fin (fold_left (fun z i => z + get w i * get x i) l z).
Proof.
  induction l as [|i l IH]; intros Hl z; [reflexivity|].
  cbn [fold_left].
  destruct (Hl i (or_introl eq_refl)) as [Hw Hx].
  rewrite !get_finite by assumption. cbn [Ext.mul Ext.add].
  apply IH. intros j Hj. apply Hl. now right.
Qed.

Lemma sigmoid_finite (z : R) : Ext.sigmoid (Ext.Fin z) = Ext.Fin (sigmoid z).
Proof.
  unfold Ext.sigmoid, sigmoid. cbn [Ext.neg Ext.Math_exp Ext.add Ext.div].
  pose proof (exp_pos (- z)).
  destruct (Req_dec_T (1 + exp (- z)) 0); [lra|reflexivity].
Qed.

(** For a model of the feature dimension with finite parameters and an
    idea with a finite or missing funding, the extended prediction is the
    real one, a number of [0,1]. *)
Lemma finite_prediction (model : LogisticRegression) (idea : Idea.t) :
  List.length (weights model) = featureDim ->
  Ext.predictSuccessRate (finite_model model) (finite_idea idea) =
    Ext.Fin (predictSuccessRate model idea) /\
  0 <= predictSuccessRate model idea <= 1.
Proof.
  intros Hdim. split; [|apply clamp01_range].
  unfold Ext.predictSuccessRate, predictSuccessRate.
  rewrite buildFeatures_finite.
  unfold Ext.predictProba, predictProba.
  cbn [finite_model Ext.weights Ext.bias].
  rewrite length_map, weighted_sum_finite.
  - rewrite sigmoid_finite. reflexivity.
  - intros i Hi. apply in_seq in Hi.
    destruct (buildFeatures_layout (normalizeInput idea)) as [Hlen _].
    rewrite Hlen, Hdim. lia.
Qed.
